(** * aptner-bulk-reserver: the API client and the schedule logic of the GUI

  A shallow embedding of [aptner_api.py] (class [AptnerClient]) and of the
  date logic of [aptner_gui.py], followed by the properties of the
  specification that concern them.

  Conventions of the model.
  - A [datetime.date] is its proleptic Gregorian ordinal ([date.toordinal()]),
    an integer, and [d.weekday()] is [(d + 6) mod 7], Monday being 0.  In
    the schedule of the window, which starts from [date.today()],
    [d + timedelta(days=n)] is [d + n]; in [get_reserved_dates], where the
    day and the day-span come from the server, it is [date_add], which raises
    [OverflowError] out of the range of [date].
  - A Python [str] is a byte string holding its UTF-8 encoding, whose
    lexicographic order on bytes is the order of [str] on code points.
  - A JSON object is read through the keys the client looks up, with values
    of the types the service answers with.  A key that is missing or [null]
    reads as [None], except where the code tells the two apart: ["days"] in
    an entry, ["reserveList"] in a page and ["cars"] in the history file.
  - The server answers every request; what it answers may depend on all the
    requests it has received.
  - [datetime.strptime] and [date.strftime] belong to the Python library and
    are variables of the model, as are the server and the current day. *)

From stdpp Require Import gmap strings list sorting.
From Equations Require Import Equations.
From Stdlib Require Import ZArith DecimalString DecimalZ DecimalPos.

Local Open Scope Z_scope.

(** ** Python values and exceptions *)

Module Py.

(** The exceptions that the modelled code can raise.  [AptnerAuthError] is a
    subclass of [AptnerError] in the source; both carry their message. *)
Inductive exn : Type :=
| AptnerError (msg : string)
| AptnerAuthError (msg : string)
| JSONDecodeError
| TypeError
| OverflowError.

Inductive result (A : Type) : Type :=
| Ok (a : A)
| Raise (e : exn).
Arguments Ok {A} a.
Arguments Raise {A} e.

Definition date : Type := Z.

(** [str(n)] for an [int]. *)
Definition str (n : Z) : string := NilZero.string_of_int (Z.to_int n).

(** [f"{t}"] for an optional string: [None] prints as the word None. *)
Definition fmt (t : option string) : string :=
  match t with Some s => s | None => "None" end.

(** Truth value of an optional string: [None] and the empty string are false. *)
Definition truthy (t : option string) : bool :=
  match t with Some s => negb (String.eqb s "") | None => false end.

(** [n or 1] for an optional integer: [None] and [0] are false. *)
Definition or_1 (n : option Z) : Z :=
  match n with
  | Some v => if v =? 0 then 1 else v
  | None => 1
  end.

(** [range(n)]: empty when [n] is not positive. *)
Definition range (n : Z) : list Z := seqZ 0 n.

(** [date.max.toordinal()], and [d + timedelta(days=n)]: [timedelta] takes
    at most 999999999 days either way, and the sum has to be a [date]. *)
Definition MAXORDINAL : Z := 3652059.

Definition date_add (d : date) (n : Z) : result date :=
  if (Z.abs n <=? 999999999) && (1 <=? d + n) && (d + n <=? MAXORDINAL)
  then Ok (d + n) else Raise OverflowError.

(** [d.weekday()] *)
Definition weekday (d : date) : Z := (d + 6) `mod` 7.

(** [date(year, month, day).toordinal()], as [datetime._ymd2ord]. *)
Definition is_leap (year : Z) : bool :=
  (year `mod` 4 =? 0) && (negb (year `mod` 100 =? 0) || (year `mod` 400 =? 0)).

Definition days_before_year (year : Z) : Z :=
  let y := year - 1 in y * 365 + y `div` 4 - y `div` 100 + y `div` 400.

Definition days_before_month (year month : Z) : Z :=
  nth (Z.to_nat month) [0; 0; 31; 59; 90; 120; 151; 181; 212; 243; 273; 304; 334] 0
  + (if (2 <? month) && is_leap year then 1 else 0).

Definition ymd2ord (year month day : Z) : date :=
  days_before_year year + days_before_month year month + day.

(** Whether [part] occurs in [s], and whether the message of an exception
    of the client shows a status code and a response body. *)
Fixpoint occurs (part s : string) : bool :=
  String.prefix part s
  || match s with
     | EmptyString => false
     | String _ s' => occurs part s'
     end.

Definition carries (e : exn) (status : Z) (body : string) : bool :=
  match e with
  | AptnerError msg | AptnerAuthError msg =>
      occurs (str status) msg && occurs body msg
  | _ => false
  end.

End Py.

Import Py.

(** ** The wire format *)

(** An entry of ["reserveList"].  [days] distinguishes a missing key ([None])
  from a present one, whose value may be [null] ([Some None]). *)
Module Raw.
Record item : Type := Item {
  visitReserveIdx : option Z;
  carNo : option string;
  visitDate : option string;
  purpose : option string;
  phone : option string;
  days : option (option Z)
}.
End Raw.

(** A parsed JSON body, through the keys that the client reads.
  [reserveList] distinguishes a missing key ([None]) from a present one,
  whose value may be [null] ([Some None]). *)
Record jobject : Type := JObject {
  accessToken : option string;
  totalPages : option Z;
  reserveList : option (option (list Raw.item))
}.

(** The dictionary [{}]. *)
Definition empty_dict : jobject :=
  {| accessToken := None; totalPages := None; reserveList := None |}.

(** The body of the reservation request built by [reserve_car]. *)
Record payload : Type := Payload {
  p_visitDate : string;
  p_purpose : string;
  p_carNo : string;
  p_days : Z;
  p_phone : string
}.

(** What is sent on [self._session]: the login, or a request with a bearer
  token in its Authorization header. *)
Inductive http_request : Type :=
| PostAuthToken (id password : string)
| Request (method url authorization : string) (json_data : option payload).

(** A response: [json] is [None] when [resp.json()] raises. *)
Record response : Type := Response {
  status_code : Z;
  text : string;
  json : option jobject
}.

(** ** The client *)

(** The object state of [AptnerClient].  [_session] is the list of the
  requests sent so far on the session, the latest first. *)
Record client : Type := Client {
  _id : string;
  _password : string;
  _token : option string;
  _session : list http_request
}.

(** Computations on the client: an outcome and the state left behind, which
  an exception does not roll back. *)
Definition M (A : Type) : Type := client → result A * client.

#[export] Instance M_ret : MRet M := λ A a c, (Ok a, c).
#[export] Instance M_bind : MBind M := λ A B f m c,
  match m c with
  | (Ok a, c') => f a c'
  | (Raise e, c') => (Raise e, c')
  end.

Definition raise {A : Type} (e : exn) : M A := λ c, (Raise e, c).
Definition self : M client := λ c, (Ok c, c).
(** The client after [self._token = t], and after a request was sent. *)
Definition with_token (t : option string) (c : client) : client :=
  {| _id := _id c; _password := _password c; _token := t;
     _session := _session c |}.

Definition sent (req : http_request) (c : client) : client :=
  {| _id := _id c; _password := _password c; _token := _token c;
     _session := req :: _session c |}.

Definition set_token (t : option string) : M unit := λ c,
  (Ok tt, with_token t c).

Definition BASE_URL : string := "https://v2.aptner.com".
Definition MAX_DAYS_PER_RESERVATION : Z := 30.

(** A dictionary appended to [reservations] by [get_reservations]. *)
Record reservation : Type := Reservation {
  idx : option Z;
  carNo : option string;
  visitDate : date;
  visitDateStr : string;
  purpose : option string;
  phone : option string;
  days : option Z
}.

(** ** Sorting *)

#[export] Instance result_ret : MRet result := λ A a, Ok a.
#[export] Instance result_bind : MBind result := λ A B f r,
  match r with
  | Ok a => f a
  | Raise e => Raise e
  end.

(** The key [(x["visitDate"], x["carNo"])]. *)
Definition sort_key (x : reservation) : date * option string :=
  (visitDate x, carNo x).

(** [a < b] on plates: defined between strings, a [TypeError] when either
    side is [None]. *)
Definition plate_lt (a b : option string) : result bool :=
  match a, b with
  | Some s, Some t => Ok (String.ltb s t)
  | _, _ => Raise TypeError
  end.

(** [k1 < k2] on key tuples: the first components that differ (by [==])
    decide, and only they are compared with [<]. *)
Definition key_lt (k1 k2 : date * option string) : result bool :=
  if bool_decide (k1.1 = k2.1) then
    if bool_decide (k1.2 = k2.2) then Ok false else plate_lt k1.2 k2.2
  else Ok (k1.1 <? k2.1).

(** [list.sort(key=...)]: a stable sort that compares keys with [<] only and
    lets an exception of a comparison escape.  It is modelled by insertion:
    each element goes before the first element of the sorted prefix that it is
    less than.  Which pairs are compared depends on the algorithm; whether a
    comparison raises does not ([sort_spec], [sort_raise_incomparable]). *)
Fixpoint insert (x : reservation) (l : list reservation)
  : result (list reservation) :=
  match l with
  | [] => Ok [x]
  | y :: l' =>
      b ← key_lt (sort_key x) (sort_key y);
      if b : bool then Ok (x :: y :: l')
      else l'' ← insert x l'; Ok (y :: l'')
  end.

Definition sort (l : list reservation) : result (list reservation) :=
  foldl (λ acc x, sorted ← acc; insert x sorted) (Ok []) l.

Definition lift {A : Type} (r : result A) : M A := λ c, (r, c).

(** The order that the keys are meant to be sorted by: the day first, then
    the plate.  Plates are ordered among strings, and [None] only equals
    itself. *)
Definition plate_le (a b : option string) : Prop :=
  match a, b with
  | Some s, Some t => String.leb s t = true
  | None, None => True
  | _, _ => False
  end.

Definition key_le (x y : reservation) : Prop :=
  visitDate x < visitDate y
  ∨ (visitDate x = visitDate y ∧ plate_le (carNo x) (carNo y)).

(** Two dictionaries whose keys Python can order: on the same day the plates
    are both strings or both [None]. *)
Definition comparable (x y : reservation) : Prop :=
  visitDate x = visitDate y → (carNo x = None ↔ carNo y = None).

Section AptnerClient.

(** The server: its answer to a request, given the requests it has
    received before (the latest first). *)
Variable server : list http_request → http_request → response.

(** [datetime.strptime(s, "%Y.%m.%d").date()], [None] when it raises. *)
Variable strptime : string → option date.

(** [d.strftime("%Y.%m.%d")] *)
Variable strftime : date → string.

(** [date.today()] *)
Variable today : date.

(** [self._session.post] and [self._session.request]. *)
Definition send (req : http_request) : M response := λ c,
  (Ok (server (_session c) req), sent req c).

Definition authenticate : M bool :=
  c ← self;
  resp ← send (PostAuthToken (_id c) (_password c));
  if 400 <=? status_code resp then
    raise (AptnerAuthError
             ("Authentication failed: " +:+ str (status_code resp)
              +:+ " - " +:+ text resp))
  else
    match json resp with
    | None => raise JSONDecodeError
    | Some data =>
        let token := accessToken data in
        if negb (truthy token) then
          raise (AptnerAuthError "Failed to obtain accessToken")
        else
          set_token token;; mret true
    end.

Definition bearer (c : client) : string := "Bearer " +:+ fmt (_token c).

Definition _request (method path : string) (json_data : option payload)
  : M jobject :=
  c ← self;
  (if negb (truthy (_token c)) then authenticate;; mret tt else mret tt);;
  c ← self;
  let url := BASE_URL +:+ path in
  resp ← send (Request method url (bearer c) json_data);
  resp ← (if status_code resp =? 401 then
            authenticate;;
            c ← self;
            send (Request method url (bearer c) json_data)
          else mret resp);
  if 400 <=? status_code resp then
    raise (AptnerError
             ("Request failed: " +:+ str (status_code resp)
              +:+ " - " +:+ text resp))
  else
    match json resp with
    | Some data => mret data
    | None => mret empty_dict
    end.

(** The body of the loop over ["reserveList"]. *)
Definition process_item (reservations : list reservation) (item : Raw.item)
  : list reservation :=
  match Raw.visitDate item with
  | None => reservations
  | Some visit_date_str =>
      match strptime visit_date_str with
      | None => reservations
      | Some visit_date =>
          if today <=? visit_date then
            reservations ++
              [ {| idx := Raw.visitReserveIdx item;
                   carNo := Raw.carNo item;
                   visitDate := visit_date;
                   visitDateStr := visit_date_str;
                   purpose := Raw.purpose item;
                   phone := Raw.phone item;
                   days := match Raw.days item with
                           | None => Some 1
                           | Some v => v
                           end |} ]
          else reservations
      end
  end.

(** The loop over [data.get("reserveList", [])]: a missing key gives no
    entry, and [None], which a [null] gives, is not iterable. *)
Definition process_page (reservations : list reservation) (data : jobject)
  : result (list reservation) :=
  match reserveList data with
  | None => Ok reservations
  | Some None => Raise TypeError
  | Some (Some items) => Ok (foldl process_item reservations items)
  end.

(** [total_pages] after the page numbered [current_page] has been read. *)
Definition read_total_pages (current_page total_pages : Z) (data : jobject)
  : Z :=
  if current_page =? 1 then or_1 (totalPages data) else total_pages.

Definition page_path (current_page : Z) : string :=
  "/pc/reserves?pg=" +:+ str current_page.

(** The [while] loop of [get_reservations], entered with the values of its
    variables; [current_page] is incremented first thing in the body. *)
Equations? pages_loop (current_page total_pages : Z)
    (reservations : list reservation) (c : client)
  : result (list reservation) * client
  by wf (Z.to_nat (50 - current_page)) lt :=
pages_loop current_page total_pages reservations c
  with decide (current_page < total_pages) := {
  | right _ := (Ok reservations, c)
  | left _ with _request "GET" (page_path (current_page + 1)) None c := {
    | (Raise e, c') := (Raise e, c')
    | (Ok data, c') with process_page reservations data := {
      | Raise e := (Raise e, c')
      | Ok reservations' with decide (50 ≤ current_page + 1) := {
        | left _ := (Ok reservations', c')
        | right _ :=
            pages_loop (current_page + 1)
              (read_total_pages (current_page + 1) total_pages data)
              reservations' c' } } } }.
Proof. lia. Qed.

Definition get_reservations : M (list reservation) :=
  reservations ← pages_loop 0 1 [];
  lift (sort reservations).

(** The body of the loop of [get_reserved_dates]; an exception of the
    addition ends the loops. *)
Definition add_reserved (car_no : option string)
    (reserved : gset (option string * date)) (r : reservation)
  : result (gset (option string * date)) :=
  if truthy car_no && negb (bool_decide (carNo r = car_no)) then Ok reserved
  else
    let base_date := visitDate r in
    let days := or_1 (days r) in
    foldl (λ acc d, reserved ← acc;
                    day ← date_add base_date d;
                    Ok (reserved ∪ {[ (carNo r, day) ]}))
      (Ok reserved) (range days).

(** The loop of [get_reserved_dates] over the reservations fetched. *)
Definition index_of (car_no : option string) (reservations : list reservation)
  : result (gset (option string * date)) :=
  foldl (λ acc r, reserved ← acc; add_reserved car_no reserved r) (Ok ∅)
    reservations.

Definition get_reserved_dates (car_no : option string)
  : M (gset (option string * date)) :=
  reservations ← get_reservations;
  lift (index_of car_no reservations).

Definition reserve_car (car_no : string) (visit_date : date) (phone : string)
    (purpose : string) (days : Z) : M jobject :=
  let days :=
    if days <? 1 then 1
    else if MAX_DAYS_PER_RESERVATION <? days then MAX_DAYS_PER_RESERVATION
    else days in
  let date_str := strftime visit_date in
  _request "POST" "/pc/reserve/"
    (Some {| p_visitDate := date_str; p_purpose := purpose;
             p_carNo := car_no; p_days := days; p_phone := phone |}).

Definition delete_reservation (idx : Z) : M jobject :=
  _request "DELETE" ("/pc/reserve/" +:+ str idx) None.

End AptnerClient.

(** ** Observations on a run *)

(** The exception that [_request] raises for a response, and what it makes
    of a response that it does not retry. *)
Definition request_failed (resp : response) : exn :=
  AptnerError
    ("Request failed: " +:+ str (status_code resp) +:+ " - " +:+ text resp).

Definition outcome (resp : response) : result jobject :=
  if 400 <=? status_code resp then Raise (request_failed resp)
  else Ok (default empty_dict (json resp)).

(** The requests other than logins on a session, the earliest first, each
    as its URL and the status that the server answered it with; and those
    among them that were sent between two states of the client. *)
Fixpoint exchanges (server : list http_request → http_request → response)
    (log : list http_request) : list (string * Z) :=
  match log with
  | [] => []
  | r :: rest =>
      exchanges server rest
      ++ match r with
         | Request _ url _ _ => [(url, status_code (server rest r))]
         | PostAuthToken _ _ => []
         end
  end.

Definition new_exchanges
    (server : list http_request → http_request → response) (c c' : client)
  : list (string * Z) :=
  drop (length (exchanges server (_session c)))
    (exchanges server (_session c')).

Definition page_url (p : Z) : string := BASE_URL +:+ page_path p.

(** [xs] shows the pages [ps] requested in turn.  Each page has a request
    with its URL; when that one was answered with status 401, and only then,
    it is followed by a second request with the same URL, unless the run
    ended there, on the last of the pages. *)
Fixpoint page_requests (ps : list Z) (xs : list (string * Z)) : bool :=
  match ps, xs with
  | [], [] => true
  | p :: ps', (u, status) :: xs' =>
      bool_decide (u = page_url p)
      && (if status =? 401 then
            match xs' with
            | (u', _) :: xs'' =>
                bool_decide (u' = page_url p) && page_requests ps' xs''
            | [] => match ps' with [] => true | _ :: _ => false end
            end
          else page_requests ps' xs')
  | _, _ => false
  end.

(** From the client [c], the pages after page [p] were requested in turn and
    each request returned; [ds] are the bodies returned and [c'] is the
    client at the end. *)
Inductive fetched (server : list http_request → http_request → response)
  : Z → client → list jobject → client → Prop :=
| fetched_nil p c : fetched server p c [] c
| fetched_cons p c data c1 ds c' :
    _request server "GET" (page_path (p + 1)) None c = (Ok data, c1) →
    fetched server (p + 1) c1 ds c' →
    fetched server p c (data :: ds) c'.

(** The dictionary that the loop over ["reserveList"] appends for an entry,
    if it appends one. *)
Definition keep (strptime : string → option date) (today : date)
    (item : Raw.item) : option reservation :=
  last (process_item strptime today [] item).

(** The entries that the loop over ["reserveList"] goes through, and a
    page whose list is not [null]. *)
Definition entries (data : jobject) : list Raw.item :=
  match reserveList data with
  | Some (Some items) => items
  | _ => []
  end.

Definition iterable (data : jobject) : Prop := reserveList data ≠ Some None.

(** The reservations kept from the pages [ds], page by page. *)
Definition kept (strptime : string → option date) (today : date)
    (ds : list jobject) : list reservation :=
  ds ≫= λ data, omap (keep strptime today) (entries data).

(** An entry whose day is a string that [strptime] accepts, and a response
    without the entries of its list that are not so. *)
Definition parses (strptime : string → option date) (item : Raw.item) : Prop :=
  is_Some (Raw.visitDate item ≫= strptime).

Definition without_unparseable (strptime : string → option date)
    (data : jobject) : jobject :=
  {| accessToken := accessToken data;
     totalPages := totalPages data;
     reserveList :=
       (λ items : option (list Raw.item), filter (parses strptime) <$> items)
       <$> reserveList data |}.

Definition drop_unparseable (strptime : string → option date)
    (resp : response) : response :=
  {| status_code := status_code resp;
     text := text resp;
     json := without_unparseable strptime <$> json resp |}.

(** [c0] is the client as [_request], called on [c], sends its request for
    the first time: [c] itself when it holds a token, and else [c] after a
    login that succeeded. *)
Definition ready (server : list http_request → http_request → response)
    (c c0 : client) : Prop :=
  (truthy (_token c) = true ∧ c0 = c)
  ∨ (truthy (_token c) = false ∧ ∃ b, authenticate server c = (Ok b, c0)).

(** The latest request on the session was not a login, and the server
    answered it with a status below 400 and a body that is not JSON. *)
Definition answered_without_json
    (server : list http_request → http_request → response) (c : client)
  : Prop :=
  ∃ method url authorization json_data rest,
    _session c = Request method url authorization json_data :: rest
    ∧ status_code (server rest (Request method url authorization json_data))
      < 400
    ∧ json (server rest (Request method url authorization json_data)) = None.

(** ** The schedule logic of the window ([aptner_gui.py]) *)

(** [[i for i, cb in enumerate(self.day_checks) if cb.isChecked()]]: the
    indices of the ticked boxes, the first box being Monday. *)
Definition selected_days (day_checks : list bool) : list Z :=
  (filter (λ p, p.2 = true)
     (zip (seqZ 0 (Z.of_nat (length day_checks))) day_checks)).*1.

(** The [while current <= end_date] loop of [_get_schedule_dates]. *)
Equations? schedule_loop (selected : list Z) (end_date current : date)
    (dates : list date) : list date
  by wf (Z.to_nat (end_date - current + 1)) lt :=
schedule_loop selected end_date current dates
  with decide (current ≤ end_date) := {
  | right _ := dates
  | left _ :=
      schedule_loop selected end_date (current + 1)
        (if bool_decide (weekday current ∈ selected) then dates ++ [current]
         else dates) }.
Proof. lia. Qed.

(** [_get_schedule_dates], as a function of the boxes, of the value of the
    weeks field and of [date.today()]. *)
Definition _get_schedule_dates (day_checks : list bool) (weeks : Z)
    (today : date) : list date :=
  let selected := selected_days day_checks in
  match selected with
  | [] => []
  | _ =>
      let end_date := today + 7 * weeks in
      schedule_loop selected end_date today []
  end.

(** [[d for d in dates if (car_no, d) not in self.reserved_dates]] of
    [_register_reservations]. *)
Definition new_dates (dates : list date) (car_no : string)
    (reserved_dates : gset (option string * date)) : list date :=
  filter (λ d, (Some car_no, d) ∉ reserved_dates) dates.

(** ** Sample data *)

Module Sample.

(** For the samples: a parser of the zero-padded form [YYYY.MM.DD], and a
    printer that stands in for [strftime]. *)
Definition digit (a : Ascii.ascii) : option Z :=
  let n := Z.of_N (Ascii.N_of_ascii a) in
  if (48 <=? n) && (n <=? 57) then Some (n - 48) else None.

Definition number (l : list Ascii.ascii) : option Z :=
  foldl (λ acc a, n ← acc; d ← digit a; Some (10 * n + d)) (Some 0) l.

Definition days_in_month (year month : Z) : Z :=
  if (month =? 2) && is_leap year then 29
  else nth (Z.to_nat month) [0; 31; 28; 31; 30; 31; 30; 31; 31; 30; 31; 30; 31] 0.

Definition strptime (s : string) : option date :=
  match String.list_ascii_of_string s with
  | [y1; y2; y3; y4; p; m1; m2; q; d1; d2] =>
      y ← number [y1; y2; y3; y4];
      m ← number [m1; m2];
      d ← number [d1; d2];
      if bool_decide (Ascii.N_of_ascii p = 46%N ∧ Ascii.N_of_ascii q = 46%N
                      ∧ 1 ≤ y ∧ 1 ≤ m ≤ 12 ∧ 1 ≤ d ≤ days_in_month y m)
      then Some (ymd2ord y m d) else None
  | _ => None
  end.

Definition strftime (d : date) : string := str d.

Definition today : date := ymd2ord 2026 11 4.

Definition fresh : client :=
  {| _id := "user"; _password := "secret"; _token := None; _session := [] |}.

Definition logged_in : client :=
  {| _id := "user"; _password := "secret"; _token := Some "t0";
     _session := [] |}.

Definition ok (body : jobject) : response :=
  {| status_code := 200; text := "{...}"; json := Some body |}.

Definition token (t : string) : jobject :=
  {| accessToken := Some t; totalPages := None; reserveList := None |}.

Definition page (total : option Z) (items : list Raw.item) : jobject :=
  {| accessToken := None; totalPages := total;
     reserveList := Some (Some items) |}.

Definition entry (car : option string) (day : string) (span : option (option Z))
  : Raw.item :=
  {| Raw.visitReserveIdx := Some 7; Raw.carNo := car; Raw.visitDate := Some day;
     Raw.purpose := None; Raw.phone := None; Raw.days := span |}.

Definition reject (code : Z) (body : string) : response :=
  {| status_code := code; text := body; json := None |}.

(** The token has expired and the login is refused. *)
Definition server_login_down (h : list http_request) (r : http_request)
  : response :=
  match r with
  | PostAuthToken _ _ => reject 500 "down"
  | Request _ _ _ _ => reject 401 "expired"
  end.

(** Only the token [t1], handed out by the login, is accepted. *)
Definition server_refresh (body : response) (h : list http_request)
    (r : http_request) : response :=
  match r with
  | PostAuthToken _ _ => ok (token "t1")
  | Request _ _ a _ =>
      if String.eqb a "Bearer t1" then body else reject 401 "expired"
  end.

(** The login answers with a JSON object that has no token. *)
Definition server_no_token (h : list http_request) (r : http_request)
  : response :=
  {| status_code := 200; text := "{}"; json := Some empty_dict |}.

(** Every page request is answered with the same page. *)
Definition server_one_page (body : jobject) (h : list http_request)
    (r : http_request) : response :=
  match r with
  | PostAuthToken _ _ => ok (token "t1")
  | Request _ _ _ _ => ok body
  end.

(** Two pages, neither in order; the second has an entry with a day that
    does not parse. *)
Definition server_two_pages (h : list http_request) (r : http_request)
  : response :=
  match r with
  | PostAuthToken _ _ => ok (token "t1")
  | Request _ url _ _ =>
      if String.eqb url "https://v2.aptner.com/pc/reserves?pg=1" then
        ok (page (Some 2)
              [entry (Some "34B5678") "2030.01.02" None;
               entry (Some "12A3456") "2030.01.02" (Some (Some 2))])
      else
        ok (page None
              [entry (Some "90Z0000") "2030/01/01" None;
               entry (Some "56C7890") "2030.01.01" (Some None)])
  end.

(** The first page announces three pages; the others are refused. *)
Definition server_second_page_down (h : list http_request)
    (r : http_request) : response :=
  match r with
  | PostAuthToken _ _ => ok (token "t1")
  | Request _ url _ _ =>
      if String.eqb url "https://v2.aptner.com/pc/reserves?pg=1" then
        ok (page (Some 3) [])
      else reject 500 "down"
  end.

(** Every page announces three pages and has [null] for its list. *)
Definition server_null_list (h : list http_request) (r : http_request)
  : response :=
  match r with
  | PostAuthToken _ _ => ok (token "t1")
  | Request _ _ _ _ =>
      ok {| accessToken := None; totalPages := Some 3;
            reserveList := Some None |}
  end.

(** Every request succeeds with a body that is not JSON. *)
Definition server_plain (h : list http_request) (r : http_request)
  : response :=
  match r with
  | PostAuthToken _ _ => ok (token "t1")
  | Request _ _ _ _ => {| status_code := 200; text := "OK"; json := None |}
  end.

End Sample.

(** ** Further observations and the rest of the window *)

(** The logins among the requests of a session. *)
Definition is_login (r : http_request) : bool :=
  match r with
  | PostAuthToken _ _ => true
  | Request _ _ _ _ => false
  end.

Definition logins (log : list http_request) : nat :=
  length (filter (λ r, is_login r = true) log).

(** [create_client_from_env], given the environment as [load_dotenv] leaves
    it: [os.getenv] is [getenv]. *)
Definition create_client_from_env (getenv : string → option string)
  : result client :=
  let user_id := getenv "APTNER_ID" in
  let password := getenv "APTNER_PW" in
  match user_id, password with
  | Some id, Some pw =>
      if negb (truthy user_id) || negb (truthy password) then
        Raise (AptnerError "APTNER_ID and APTNER_PW must be set in .env")
      else
        Ok {| _id := id; _password := pw; _token := None; _session := [] |}
  | _, _ => Raise (AptnerError "APTNER_ID and APTNER_PW must be set in .env")
  end.

(** A reservation occupies a day: the day is one of the [days or 1] days
    from its first day on. *)
Definition covers (r : reservation) (d : date) : Prop :=
  visitDate r ≤ d < visitDate r + or_1 (days r).

(** [len(s)]: the number of code points of a string, which are the bytes of
    its UTF-8 encoding other than continuation bytes. *)
Definition len (s : string) : Z :=
  Z.of_nat
    (length (filter (λ a, N.land (Ascii.N_of_ascii a) 192 ≠ 128%N)
               (String.list_ascii_of_string s))).

(** A line feed. *)
Definition nl : string := String (Ascii.ascii_of_nat 10) "".

(** *** The history of cars *)

(** An entry of the list under ["cars"] in the history file; a key that the
    entry does not have reads as [None]. *)
Record car : Type := Car {
  h_carNo : option string;
  h_phone : option string
}.

(** The history file: missing; present but with a content that makes the
    reading raise (it cannot be opened, decoded or parsed, or is not a
    mapping); or a mapping, with what is under ["cars"]: [None] when there is
    no such key, [Some None] when its value is [null].  An empty file reads
    as the mapping without keys. *)
Inductive car_file : Type :=
| NoFile
| Unreadable
| Document (cars : option (option (list car))).

(** [load_car_history]; it returns [None] for a [null] under ["cars"]. *)
Definition load_car_history (file : car_file) : option (list car) :=
  match file with
  | NoFile => Some []
  | Unreadable => Some []
  | Document None => Some []
  | Document (Some cars) => cars
  end.

Definition save_car_history (cars : list car) : car_file :=
  Document (Some (Some cars)).

(** The loop of [add_car_to_history]: the list with the phone of the first
    entry of the plate replaced, or [None] when no entry has the plate. *)
Fixpoint set_phone (car_no phone : string) (cars : list car)
  : option (list car) :=
  match cars with
  | [] => None
  | entry :: rest =>
      if bool_decide (h_carNo entry = Some car_no) then
        Some ({| h_carNo := h_carNo entry; h_phone := Some phone |} :: rest)
      else (entry ::.) <$> set_phone car_no phone rest
  end.

(** [add_car_to_history]: the file that it leaves, or the [TypeError] of
    the loop over [None], before anything is written. *)
Definition add_car_to_history (car_no phone : string) (file : car_file)
  : result car_file :=
  match load_car_history file with
  | None => Raise TypeError
  | Some cars =>
      match set_phone car_no phone cars with
      | Some cars' => Ok (save_car_history cars')
      | None =>
          Ok (save_car_history
                (cars ++ [ {| h_carNo := Some car_no;
                              h_phone := Some phone |} ]))
      end
  end.

(** [self._car_data] as [_load_car_history] builds it from the list: a
    later entry of a plate replaces an earlier one.  The comprehension over
    [None] raises. *)
Definition _car_data (cars : list car) : gmap (option string) string :=
  foldl (λ data entry, <[h_carNo entry := default "" (h_phone entry)]> data)
    ∅ cars.

Definition _load_car_history (file : car_file)
  : result (gmap (option string) string) :=
  match load_car_history file with
  | None => Raise TypeError
  | Some cars => Ok (_car_data cars)
  end.

(** [_on_car_changed]: the text of the phone field after the plate field
    has changed to [car_no]. *)
Definition _on_car_changed (data : gmap (option string) string)
    (car_no phone_edit : string) : string :=
  let phone := default "" (data !! Some car_no) in
  if negb (String.eqb phone "") then phone else phone_edit.

(** *** Preview, registration and deletion *)

(** The count of [_preview_dates]. *)
Definition count_duplicates (dates : list date) (car_no : string)
    (reserved_dates : gset (option string * date)) : Z :=
  if truthy (Some car_no) && negb (bool_decide (reserved_dates = ∅)) then
    foldl (λ duplicates d,
             if bool_decide ((Some car_no, d) ∈ reserved_dates)
             then duplicates + 1 else duplicates) 0 dates
  else 0.

(** [_preview_dates]: the text that it puts in the preview label.
    [isoformat] is [str] on dates, and [car_no] the text of the plate field
    with the blanks at its ends removed. *)
Definition _preview_dates (isoformat : date → string)
    (day_checks : list bool) (weeks : Z) (today : date) (car_no : string)
    (reserved_dates : gset (option string * date)) : string :=
  let dates := _get_schedule_dates day_checks weeks today in
  match dates with
  | [] => "선택된 요일이 없습니다"
  | first :: _ =>
      let duplicates := count_duplicates dates car_no reserved_dates in
      let new_count := Z.of_nat (length dates) - duplicates in
      let text :=
        "총 " +:+ str (Z.of_nat (length dates)) +:+ "일 ("
        +:+ isoformat first +:+ " ~ " +:+ isoformat (default first (last dates))
        +:+ ")" in
      if 0 <? duplicates then
        text +:+ " / 중복 " +:+ str duplicates +:+ "건 제외 → "
        +:+ str new_count +:+ "건"
      else text
  end.

Section Window.

Variable server : list http_request → http_request → response.
Variable strftime : date → string.

(** The loop of [register_all], with the counts so far: an exception of
    [reserve_car] is counted and the loop goes on. *)
Fixpoint register_loop (car_no phone purpose : string)
    (new_dates : list date) (success failed : Z) : M (Z * Z) :=
  match new_dates with
  | [] => mret (success, failed)
  | d :: rest => λ c,
      match reserve_car server strftime car_no d phone purpose 1 c with
      | (Ok _, c') =>
          register_loop car_no phone purpose rest (success + 1) failed c'
      | (Raise _, c') =>
          register_loop car_no phone purpose rest success (failed + 1) c'
      end
  end.

Definition register_all (car_no phone purpose : string)
    (new_dates : list date) : M (Z * Z) :=
  register_loop car_no phone purpose new_dates 0 0.

(** What [_register_reservations] comes to: a warning or information box
    and nothing else; the question answered otherwise than with Yes; an
    exception of [add_car_to_history], which ends the slot; the counts passed
    to [_on_register_complete]; or an exception of the worker, which is
    logged. *)
Inductive registration : Type :=
| Refused (title text : string)
| Declined (text : string)
| HistoryError (text : string) (e : exn)
| Registered (text : string) (success failed : Z)
| WorkerError (text : string) (e : exn).

(** [_register_reservations], on the history file and the client.  [car_no]
    and [phone] are the texts of the fields with the blanks at their ends
    removed, and [reply] tells whether the question is answered with Yes.
    The worker is run to its end. *)
Definition _register_reservations (car_no phone purpose : string)
    (day_checks : list bool) (weeks : Z) (today : date)
    (reserved_dates : gset (option string * date)) (reply : bool)
    (file : car_file) (c : client) : registration * car_file * client :=
  if negb (truthy (Some car_no)) then
    (Refused "오류" "차량번호를 입력해주세요", file, c)
  else if negb (truthy (Some phone)) || (len phone <? 10) then
    (Refused "오류" "연락처를 입력해주세요", file, c)
  else
    let dates := _get_schedule_dates day_checks weeks today in
    match dates with
    | [] => (Refused "오류" "요일을 선택해주세요", file, c)
    | _ =>
        let new_dates := new_dates dates car_no reserved_dates in
        match new_dates with
        | [] =>
            (Refused "알림" "모든 날짜가 이미 예약되어 있습니다", file, c)
        | _ =>
            let msg :=
              "차량번호: " +:+ car_no +:+ nl +:+ "연락처: " +:+ phone +:+ nl
              +:+ "목적: " +:+ purpose +:+ nl +:+ "예약일: "
              +:+ str (Z.of_nat (length new_dates)) +:+ "건" +:+ nl +:+ nl
              +:+ "예약하시겠습니까?" in
            if negb reply then (Declined msg, file, c)
            else
              match add_car_to_history car_no phone file with
              | Raise e => (HistoryError msg e, file, c)
              | Ok file' =>
                  match register_all car_no phone purpose new_dates c with
                  | (Ok (success, failed), c') =>
                      (Registered msg success failed, file', c')
                  | (Raise e, c') => (WorkerError msg e, file', c')
                  end
              end
        end
    end.

(** What [_delete_reservation] comes to. *)
Inductive deletion : Type :=
| NoIdentifier
| NotConfirmed
| DeleteDone
| DeleteError (e : exn).

(** [_delete_reservation], with the worker run to its end. *)
Definition _delete_reservation (idx : option Z) (reply : bool) (c : client)
  : deletion * client :=
  match idx with
  | None => (NoIdentifier, c)
  | Some i =>
      if i =? 0 then (NoIdentifier, c)
      else if negb reply then (NotConfirmed, c)
      else
        match delete_reservation server i c with
        | (Ok _, c') => (DeleteDone, c')
        | (Raise e, c') => (DeleteError e, c')
        end
  end.

End Window.

(** * Properties *)

(** ** Planning a submission *)

(** C3. The dates kept for submission are the candidate dates whose pair with
    the plate is not in the index: a subsequence of the candidates that has
    exactly their unreserved members, taken segment by segment in the order
    of the input, and that planning again leaves as it is. *)
Theorem new_dates_subsequence (dates : list date) (car_no : string)
    (reserved_dates : gset (option string * date)) :
  sublist (new_dates dates car_no reserved_dates) dates
  ∧ (∀ d, d ∈ new_dates dates car_no reserved_dates
          ↔ d ∈ dates ∧ (Some car_no, d) ∉ reserved_dates)
  ∧ (∀ l1 l2, dates = l1 ++ l2 →
       new_dates dates car_no reserved_dates
       = new_dates l1 car_no reserved_dates
         ++ new_dates l2 car_no reserved_dates)
  ∧ new_dates (new_dates dates car_no reserved_dates) car_no reserved_dates
    = new_dates dates car_no reserved_dates.
Proof.
  unfold new_dates. split; [apply sublist_filter|].
  split; [intros d; rewrite list_elem_of_filter; tauto|].
  split; [intros l1 l2 ->; apply filter_app|].
  apply list_filter_filter_l. tauto.
Qed.

(** ** Expanding a schedule *)

Lemma elem_of_selected_from (k : Z) (day_checks : list bool) (i : Z) :
  i ∈ (filter (λ p, p.2 = true)
         (zip (seqZ k (Z.of_nat (length day_checks))) day_checks)).*1
  ↔ k ≤ i ∧ day_checks !! Z.to_nat (i - k) = Some true.
Proof.
  revert k. induction day_checks as [|b cs IH]; intros k.
  - simpl. rewrite elem_of_nil. split; [tauto|]. intros [_ H]. discriminate.
  - rewrite seqZ_cons by (simpl; lia).
    replace (Z.pred (Z.of_nat (length (b :: cs)))) with (Z.of_nat (length cs))
      by (simpl; lia).
    change (zip (k :: ?l) (b :: cs)) with ((k, b) :: zip l cs).
    rewrite filter_cons.
    assert (Hshift : k < i →
      (b :: cs) !! Z.to_nat (i - k) = cs !! Z.to_nat (i - Z.succ k)).
    { intros Hlt.
      by replace (Z.to_nat (i - k)) with (S (Z.to_nat (i - Z.succ k))) by lia. }
    assert (Hhere : (b :: cs) !! Z.to_nat (k - k) = Some b).
    { by replace (Z.to_nat (k - k)) with 0%nat by lia. }
    destruct (decide ((k, b).2 = true)) as [Hb|Hb]; simpl in Hb.
    + subst b. rewrite fmap_cons, elem_of_cons, IH. simpl. split.
      * intros [->|[Hk Hl]]; [split; [lia|done]|].
        split; [lia|]. rewrite Hshift by lia. done.
      * intros [Hk Hl]. destruct (decide (i = k)) as [->|Hne]; [by left|].
        right. split; [lia|]. rewrite <- Hshift by lia. done.
    + rewrite IH. split.
      * intros [Hk Hl]. split; [lia|]. rewrite Hshift by lia. done.
      * intros [Hk Hl]. destruct (decide (i = k)) as [->|Hne].
        -- rewrite Hhere in Hl. congruence.
        -- split; [lia|]. rewrite <- Hshift by lia. done.
Qed.

(** A weekday is selected when its box is ticked. *)
Lemma elem_of_selected_days (day_checks : list bool) (i : Z) :
  i ∈ selected_days day_checks
  ↔ 0 ≤ i ∧ day_checks !! Z.to_nat i = Some true.
Proof.
  unfold selected_days. rewrite elem_of_selected_from.
  by replace (i - 0) with i by lia.
Qed.

Lemma schedule_loop_filter (selected : list Z) (end_date current : date)
    (dates : list date) :
  schedule_loop selected end_date current dates
  = dates ++ filter (λ d, weekday d ∈ selected)
               (seqZ current (end_date - current + 1)).
Proof.
  funelim (schedule_loop selected end_date current dates).
  - rewrite (seqZ_cons current) by lia.
    replace (Z.pred (end_date - current + 1))
      with (end_date - (current + 1) + 1) by lia.
    replace (Z.succ current) with (current + 1) by lia.
    rewrite filter_cons.
    match goal with IH : schedule_loop _ _ _ _ = _ ++ _ |- _ => rewrite IH end.
    clear. case_bool_decide; destruct (decide _); try done.
    by rewrite <- app_assoc.
  - rewrite seqZ_nil by lia. by rewrite app_nil_r.
Qed.

Lemma StronglySorted_filter {A : Type} (R : relation A) (P : A → Prop)
    `{!∀ x, Decision (P x)} (l : list A) :
  StronglySorted R l → StronglySorted R (filter P l).
Proof.
  induction 1 as [|x l Hl IH Hx]; [constructor|].
  rewrite filter_cons. destruct (decide (P x)); [|done].
  constructor; [done|].
  rewrite Forall_forall in Hx |- *.
  intros y Hy. apply Hx. apply list_elem_of_filter in Hy. tauto.
Qed.

Lemma seqZ_sorted (m n : Z) : StronglySorted Z.lt (seqZ m n).
Proof.
  destruct (decide (0 ≤ n)) as [Hn|Hn]; [|rewrite seqZ_nil by lia; constructor].
  rewrite <- (Z2Nat.id n) by done. generalize (Z.to_nat n) as k. clear.
  intros k. revert m. induction k as [|k IH]; intros m; [constructor|].
  rewrite seqZ_cons by lia.
  replace (Z.pred (Z.of_nat (S k))) with (Z.of_nat k) by lia.
  constructor; [apply IH|].
  apply Forall_seqZ. lia.
Qed.

(** C4. With no box ticked the schedule is empty.  Otherwise it is the run
    of the days from today to the day [7 * weeks] later, both included,
    restricted to the ticked weekdays: strictly ascending, and holding a day
    exactly when it lies in that range and its weekday is ticked.  Monday and
    Wednesday over one week from Monday 2024-01-01 give the 1st, the 3rd and
    the 8th of January 2024. *)
Theorem get_schedule_dates_spec (day_checks : list bool) (weeks : Z)
    (today : date) :
  (selected_days day_checks = [] →
     _get_schedule_dates day_checks weeks today = [])
  ∧ (selected_days day_checks ≠ [] →
     _get_schedule_dates day_checks weeks today
     = filter (λ d, weekday d ∈ selected_days day_checks)
         (seqZ today (7 * weeks + 1)))
  ∧ StronglySorted Z.lt (_get_schedule_dates day_checks weeks today)
  ∧ (selected_days day_checks ≠ [] →
     ∀ d, d ∈ _get_schedule_dates day_checks weeks today
          ↔ today ≤ d ≤ today + 7 * weeks
            ∧ day_checks !! Z.to_nat (weekday d) = Some true)
  ∧ weekday (ymd2ord 2024 1 1) = 0
  ∧ _get_schedule_dates [true; false; true; false; false; false; false] 1
      (ymd2ord 2024 1 1)
    = [ymd2ord 2024 1 1; ymd2ord 2024 1 3; ymd2ord 2024 1 8].
Proof.
  assert (Hrun : selected_days day_checks ≠ [] →
     _get_schedule_dates day_checks weeks today
     = filter (λ d, weekday d ∈ selected_days day_checks)
         (seqZ today (7 * weeks + 1))).
  { intros Hne. unfold _get_schedule_dates.
    destruct (selected_days day_checks) as [|i l] eqn:E; [done|].
    rewrite schedule_loop_filter. simpl. do 2 f_equal. lia. }
  split; [intros E; unfold _get_schedule_dates; by rewrite E|].
  split; [done|].
  split.
  { destruct (decide (selected_days day_checks = [])) as [E|Hne].
    - unfold _get_schedule_dates. rewrite E. constructor.
    - rewrite Hrun by done. apply StronglySorted_filter, seqZ_sorted. }
  split.
  { intros Hne d. rewrite Hrun by done.
    rewrite list_elem_of_filter, elem_of_seqZ, elem_of_selected_days.
    assert (0 ≤ weekday d) by (unfold weekday; apply Z.mod_pos_bound; lia).
    intuition lia. }
  split; reflexivity.
Qed.

(** A run of C4 with a box ticked. *)
Lemma get_schedule_dates_spec_witness :
  selected_days [false; true] ≠ []
  ∧ _get_schedule_dates [false; true] 1 10 = [16].
Proof.
  split; [discriminate|].
  rewrite (proj1 (proj2 (get_schedule_dates_spec [false; true] 1 10)));
    [reflexivity|discriminate].
Defined.

(** ** Logging in *)

Lemma prefix_app (part post : string) : String.prefix part (part +:+ post) = true.
Proof.
  induction part as [|a part IH]; simpl; [by destruct post|].
  destruct (Ascii.ascii_dec a a); [done|congruence].
Qed.

Lemma occurs_prefix (part s : string) :
  String.prefix part s = true → occurs part s = true.
Proof.
  intros Hp.
  assert (occurs part s
          = String.prefix part s
            || match s with
               | EmptyString => false
               | String _ s' => occurs part s'
               end) as -> by (by destruct s).
  by rewrite Hp.
Qed.

Lemma occurs_app_r (part pre s : string) :
  occurs part s = true → occurs part (pre +:+ s) = true.
Proof.
  intros Hs. induction pre as [|a pre IH]; [done|].
  change (String a pre +:+ s) with (String a (pre +:+ s)).
  simpl occurs. rewrite IH. apply orb_true_r.
Qed.

Lemma occurs_app_l (part post : string) : occurs part (part +:+ post) = true.
Proof. apply occurs_prefix, prefix_app. Qed.

Lemma occurs_refl (part : string) : occurs part part = true.
Proof.
  apply occurs_prefix. induction part as [|a part IH]; simpl; [done|].
  destruct (Ascii.ascii_dec a a); [done|congruence].
Qed.

Lemma occurs_message (pre status body : string) :
  occurs status (pre +:+ status +:+ " - " +:+ body)
  && occurs body (pre +:+ status +:+ " - " +:+ body) = true.
Proof.
  assert (occurs status (pre +:+ status +:+ " - " +:+ body) = true) as ->
    by apply occurs_app_r, occurs_app_l.
  assert (occurs body (pre +:+ status +:+ " - " +:+ body) = true) as ->
    by (do 3 apply occurs_app_r; apply occurs_refl).
  done.
Qed.

(** What [authenticate] does, by the answer of the server to the login. *)
Lemma authenticate_run (server : list http_request → http_request → response)
    (c : client) :
  let req := PostAuthToken (_id c) (_password c) in
  let resp := server (_session c) req in
  authenticate server c
  = if 400 <=? status_code resp then
      (Raise (AptnerAuthError ("Authentication failed: "
                               +:+ str (status_code resp)
                               +:+ " - " +:+ text resp)), sent req c)
    else match json resp with
         | None => (Raise JSONDecodeError, sent req c)
         | Some data =>
             if truthy (accessToken data)
             then (Ok true, with_token (accessToken data) (sent req c))
             else (Raise (AptnerAuthError "Failed to obtain accessToken"),
                   sent req c)
         end.
Proof.
  unfold authenticate, mbind, M_bind, self, send, raise; simpl.
  destruct (400 <=? _); [done|].
  destruct (json _) as [data|]; [|done].
  by destruct (truthy _).
Qed.

(** C8, as amended.  A login answered with a status below 400 and a JSON
    object holding a non-empty token stores that token.  An answer with a
    status of 400 or more raises [AptnerAuthError] with a message that shows
    the status and the body.  An answer with a status below 400 and a JSON
    object without a token (or with an empty one) raises [AptnerAuthError]
    with the fixed message that the token could not be obtained. *)
Theorem authenticate_spec (server : list http_request → http_request → response)
    (c : client) (resp : response) :
  resp = server (_session c) (PostAuthToken (_id c) (_password c)) →
  let c' := sent (PostAuthToken (_id c) (_password c)) c in
  (status_code resp < 400 → ∀ data, json resp = Some data →
     truthy (accessToken data) = true →
     authenticate server c = (Ok true, with_token (accessToken data) c'))
  ∧ (400 ≤ status_code resp →
     ∃ msg, authenticate server c = (Raise (AptnerAuthError msg), c')
            ∧ carries (AptnerAuthError msg) (status_code resp) (text resp)
              = true)
  ∧ (status_code resp < 400 → ∀ data, json resp = Some data →
     truthy (accessToken data) = false →
     authenticate server c
     = (Raise (AptnerAuthError "Failed to obtain accessToken"), c')).
Proof.
  intros -> c'. rewrite authenticate_run. cbv zeta.
  repeat split.
  - intros Hs data -> ->. by rewrite (proj2 (Z.leb_gt _ _)) by lia.
  - intros Hs. rewrite (proj2 (Z.leb_le _ _)) by lia.
    eexists; split; [done|]. apply occurs_message.
  - intros Hs data -> ->. by rewrite (proj2 (Z.leb_gt _ _)) by lia.
Qed.

(** A run of C8: the login is refused with status 500. *)
Lemma authenticate_spec_witness :
  ∃ msg, authenticate Sample.server_login_down Sample.fresh
         = (Raise (AptnerAuthError msg),
            sent (PostAuthToken "user" "secret") Sample.fresh)
         ∧ carries (AptnerAuthError msg) 500 "down" = true.
Proof.
  apply (authenticate_spec Sample.server_login_down Sample.fresh
           (Sample.reject 500 "down") eq_refl).
  simpl. lia.
Defined.

(** C8 as stated fails: an answer with status 200 whose JSON object has no
    token raises an [AptnerAuthError] whose message shows neither the status
    nor the body. *)
Lemma authenticate_missing_token_message :
  ¬ (∀ (server : list http_request → http_request → response) (c : client)
       (data : jobject),
       let resp := server (_session c) (PostAuthToken (_id c) (_password c)) in
       status_code resp < 400 → json resp = Some data →
       accessToken data = None →
       ∃ msg c', authenticate server c = (Raise (AptnerAuthError msg), c')
                 ∧ carries (AptnerAuthError msg) (status_code resp) (text resp)
                   = true).
Proof.
  intros H.
  destruct (H Sample.server_no_token Sample.fresh empty_dict)
    as (msg & c' & Hrun & Hmsg); [simpl; lia|done|done|].
  vm_compute in Hrun. injection Hrun as <- <-. vm_compute in Hmsg. done.
Qed.

(** ** Authorized requests *)

(** What [_request] does when the client holds a token. *)
Lemma request_run (server : list http_request → http_request → response)
    (method path : string) (json_data : option payload) (c : client) :
  truthy (_token c) = true →
  let first := Request method (BASE_URL +:+ path) (bearer c) json_data in
  let resp := server (_session c) first in
  _request server method path json_data c
  = if status_code resp =? 401 then
      match authenticate server (sent first c) with
      | (Raise e, c2) => (Raise e, c2)
      | (Ok _, c2) =>
          let retry := Request method (BASE_URL +:+ path) (bearer c2) json_data in
          (outcome (server (_session c2) retry), sent retry c2)
      end
    else (outcome resp, sent first c).
Proof.
  intros Ht. unfold _request, mbind, M_bind, self, send; simpl.
  rewrite Ht; simpl. unfold mret, M_ret, outcome, request_failed, raise.
  destruct (status_code _ =? 401).
  - destruct (authenticate server _) as [[b|e] c2]; [|done].
    destruct (400 <=? _); [done|]. by destruct (json _).
  - destruct (400 <=? _); [done|]. by destruct (json _).
Qed.

(** Without a token, [_request] logs in first. *)
Lemma request_login_first (server : list http_request → http_request → response)
    (method path : string) (json_data : option payload) (c : client) :
  truthy (_token c) = false →
  _request server method path json_data c
  = match authenticate server c with
    | (Raise e, c0) => (Raise e, c0)
    | (Ok _, c0) => _request server method path json_data c0
    end.
Proof.
  intros Ht. rewrite authenticate_run. cbv zeta.
  unfold _request at 1. unfold mbind, M_bind, self; simpl. rewrite Ht; simpl.
  rewrite authenticate_run. cbv zeta.
  destruct (400 <=? _); [done|].
  destruct (json _) as [data|]; [|done].
  destruct (truthy (accessToken data)) eqn:Hd; [|done].
  unfold mret, M_ret. unfold _request, mbind, M_bind, self; simpl.
  rewrite Hd. done.
Qed.

(** The session after [authenticate] has the login as its latest request. *)
Lemma authenticate_session (server : list http_request → http_request → response)
    (c : client) :
  _session (authenticate server c).2
  = PostAuthToken (_id c) (_password c) :: _session c
  ∧ _id (authenticate server c).2 = _id c
  ∧ _password (authenticate server c).2 = _password c.
Proof.
  rewrite authenticate_run. cbv zeta.
  destruct (400 <=? _); [done|].
  destruct (json _) as [data|]; [|done].
  by destruct (truthy _).
Qed.

Lemma authenticate_ok_token (server : list http_request → http_request → response)
    (c c' : client) (b : bool) :
  authenticate server c = (Ok b, c') → truthy (_token c') = true.
Proof.
  rewrite authenticate_run. cbv zeta.
  destruct (400 <=? _); [done|].
  destruct (json _) as [data|]; [|done].
  destruct (truthy _) eqn:E; [|done].
  by intros [= _ <-].
Qed.

Lemma request_ready (server : list http_request → http_request → response)
    (method path : string) (json_data : option payload) (c c0 : client) :
  ready server c c0 →
  truthy (_token c0) = true
  ∧ _request server method path json_data c
    = _request server method path json_data c0.
Proof.
  intros [[Ht ->]|[Ht [b Hb]]]; [done|].
  split; [by eapply authenticate_ok_token|].
  rewrite request_login_first by done. by rewrite Hb.
Qed.

(** C2, as amended.  When the first response to an authorized request has
    status 401, the client logs in once more, and nothing else is sent unless
    that login succeeds.  If it fails, its exception is the result and the
    request is not retried.  If it succeeds, the request is sent once more,
    with the new token, and that is the last thing sent: a retried response
    with status 400 or more (401 included) raises [AptnerError] with the
    status and the body, and any other is the result. *)
Theorem request_single_retry
    (server : list http_request → http_request → response)
    (method path : string) (json_data : option payload) (c c0 : client) :
  ready server c c0 →
  let first := Request method (BASE_URL +:+ path) (bearer c0) json_data in
  status_code (server (_session c0) first) = 401 →
  ∃ r c2,
    authenticate server (sent first c0) = (r, c2)
    ∧ _session c2 = PostAuthToken (_id c0) (_password c0) :: first :: _session c0
    ∧ match r with
      | Raise e => _request server method path json_data c = (Raise e, c2)
      | Ok _ =>
          let retry :=
            Request method (BASE_URL +:+ path) (bearer c2) json_data in
          let resp := server (_session c2) retry in
          _request server method path json_data c
          = (outcome resp, sent retry c2)
          ∧ (400 ≤ status_code resp →
             outcome resp = Raise (request_failed resp)
             ∧ carries (request_failed resp) (status_code resp) (text resp)
               = true)
      end.
Proof.
  intros Hc first H401.
  destruct (request_ready server method path json_data c c0 Hc) as [Ht ->].
  rewrite request_run by done. cbv zeta. fold first.
  rewrite H401, Z.eqb_refl.
  destruct (authenticate server (sent first c0)) as [r c2] eqn:Ha.
  exists r, c2. split; [done|]. split.
  { pose proof (authenticate_session server (sent first c0)) as (Hs & _ & _).
    by rewrite Ha in Hs. }
  destruct r as [b|e]; [|done].
  split; [done|]. intros Hge. unfold outcome.
  rewrite (proj2 (Z.leb_le _ _)) by lia. split; [done|].
  apply occurs_message.
Qed.

(** A run of C2: the token [t0] has expired, the login hands out [t1], and
    the request sent again with [t1] is refused with status 403. *)
Lemma request_single_retry_witness :
  _request (Sample.server_refresh (Sample.reject 403 "no")) "GET" "/x" None
    Sample.logged_in
  = (Raise (AptnerError "Request failed: 403 - no"),
     {| _id := "user"; _password := "secret"; _token := Some "t1";
        _session := [Request "GET" "https://v2.aptner.com/x" "Bearer t1" None;
                     PostAuthToken "user" "secret";
                     Request "GET" "https://v2.aptner.com/x" "Bearer t0" None]
     |}).
Proof.
  destruct (request_single_retry
              (Sample.server_refresh (Sample.reject 403 "no")) "GET" "/x" None
              Sample.logged_in Sample.logged_in)
    as (r & c2 & Ha & _ & Hr); [by left|reflexivity|].
  vm_compute in Ha. injection Ha as <- <-.
  destruct Hr as [-> _]. reflexivity.
Defined.

(** C2 as stated fails: when the login that follows a 401 is refused, the
    request is not sent again, so that two requests and not three are on the
    session, and the exception is that of the login. *)
Lemma request_no_retry_after_failed_login :
  ¬ (∀ (server : list http_request → http_request → response)
       (method path : string) (json_data : option payload) (c : client),
       truthy (_token c) = true →
       let first := Request method (BASE_URL +:+ path) (bearer c) json_data in
       status_code (server (_session c) first) = 401 →
       ∃ out c' retry,
         _request server method path json_data c = (out, c')
         ∧ _session c'
           = retry :: PostAuthToken (_id c) (_password c) :: first
               :: _session c).
Proof.
  intros H.
  destruct (H Sample.server_login_down "GET" "/x" None Sample.logged_in)
    as (out & c' & retry & Hrun & Hs); [done|done|].
  vm_compute in Hrun. injection Hrun as <- <-. discriminate Hs.
Qed.

(** C9. When the response that ends an authorized request has a status
    below 400 and a body that is not JSON, [_request] returns the empty
    dictionary, and so do [reserve_car] and [delete_reservation], which
    return what [_request] returns. *)
Theorem request_non_json_body
    (server : list http_request → http_request → response)
    (c c' : client) (out : result jobject) :
  answered_without_json server c' →
  (∀ method path json_data,
     _request server method path json_data c = (out, c') →
     out = Ok empty_dict)
  ∧ (∀ strftime car_no visit_date phone purpose days,
       reserve_car server strftime car_no visit_date phone purpose days c
       = (out, c') →
       out = Ok empty_dict)
  ∧ (∀ idx, delete_reservation server idx c = (out, c') →
       out = Ok empty_dict).
Proof.
  intros (m & u & a & j & rest & Hs & Hst & Hj).
  assert (Hreq : ∀ method path json_data,
            _request server method path json_data c = (out, c') →
            out = Ok empty_dict).
  { intros method path json_data.
    assert (Hdone : ∀ c0, truthy (_token c0) = true →
              _request server method path json_data c0 = (out, c') →
              out = Ok empty_dict).
    { intros c0 Ht. rewrite request_run by done. cbv zeta.
      assert (Hlast : ∀ req c1, (outcome (server (_session c1) req), sent req c1)
                                = (out, c') → out = Ok empty_dict).
      { intros req c1 [= <- <-]. simpl in Hs. injection Hs as -> ->.
        unfold outcome. rewrite (proj2 (Z.leb_gt _ _)) by lia.
        by rewrite Hj. }
      destruct (status_code _ =? 401); [|apply Hlast].
      pose proof (authenticate_session server
                    (sent (Request method (BASE_URL +:+ path) (bearer c0)
                             json_data) c0)) as (Hauth & _ & _).
      destruct (authenticate server _) as [[b|e] c2]; [apply Hlast|].
      intros [= <- <-]. simpl in Hauth. congruence. }
    destruct (truthy (_token c)) eqn:Ht; [by apply Hdone|].
    rewrite request_login_first by done.
    pose proof (authenticate_session server c) as (Hauth & _ & _).
    destruct (authenticate server c) as [[b|e] c0] eqn:Ha.
    - apply Hdone. by eapply authenticate_ok_token.
    - intros [= <- <-]. simpl in Hauth. congruence. }
  split; [done|]. split.
  - intros strftime car_no visit_date phone purpose days. apply Hreq.
  - intros idx. apply Hreq.
Qed.

(** A run of C9: a reservation and a deletion that the server acknowledges
    with a body that is not JSON. *)
Lemma request_non_json_body_witness :
  (reserve_car Sample.server_plain Sample.strftime "12A3456" 738886
     "01012345678" "visit" 1 Sample.logged_in).1 = Ok empty_dict
  ∧ (delete_reservation Sample.server_plain 7 Sample.logged_in).1
    = Ok empty_dict.
Proof.
  split.
  - destruct (reserve_car Sample.server_plain Sample.strftime "12A3456" 738886
                "01012345678" "visit" 1 Sample.logged_in) as [out c'] eqn:E.
    refine (proj1 (proj2 (request_non_json_body Sample.server_plain
                            Sample.logged_in c' out _)) _ _ _ _ _ _ E).
    vm_compute in E. injection E as <- <-.
    by eexists _, _, _, _, _.
  - destruct (delete_reservation Sample.server_plain 7 Sample.logged_in)
      as [out c'] eqn:E.
    refine (proj2 (proj2 (request_non_json_body Sample.server_plain
                            Sample.logged_in c' out _)) _ E).
    vm_compute in E. injection E as <- <-.
    by eexists _, _, _, _, _.
Defined.

(** ** Sorting the reservations *)

Lemma string_compare_refl (s : string) : String.compare s s = Eq.
Proof.
  induction s as [|a s IH]; [done|]. simpl.
  unfold Ascii.compare. by rewrite N.compare_refl.
Qed.

Lemma string_compare_lt_trans (s t u : string) :
  String.compare s t = Lt → String.compare t u = Lt → String.compare s u = Lt.
Proof.
  revert t u. induction s as [|a s IH]; intros [|b t] [|c u]; simpl; try done.
  unfold Ascii.compare.
  destruct (N.compare_spec (Ascii.N_of_ascii a) (Ascii.N_of_ascii b)) as [E1|L1|G1];
    destruct (N.compare_spec (Ascii.N_of_ascii b) (Ascii.N_of_ascii c)) as [E2|L2|G2];
    try done; intros H1 H2.
  - rewrite E1, E2, N.compare_refl. by eapply IH.
  - rewrite E1. by apply N.compare_lt_iff in L2 as ->.
  - rewrite <- E2. by apply N.compare_lt_iff in L1 as ->.
  - assert (Ascii.N_of_ascii a < Ascii.N_of_ascii c)%N as Hac by lia.
    by apply N.compare_lt_iff in Hac as ->.
Qed.

Lemma string_leb_iff (s t : string) :
  String.leb s t = true ↔ s = t ∨ String.compare s t = Lt.
Proof.
  unfold String.leb. destruct (String.compare s t) eqn:E.
  - apply String.compare_eq_iff in E. tauto.
  - tauto.
  - split; [done|]. intros [->|]; [|done].
    by rewrite string_compare_refl in E.
Qed.

Lemma string_leb_trans (s t u : string) :
  String.leb s t = true → String.leb t u = true → String.leb s u = true.
Proof.
  rewrite !string_leb_iff. intros [->|H1] [->|H2]; auto.
  right. by eapply string_compare_lt_trans.
Qed.

Lemma string_ltb_leb (s t : string) :
  if String.ltb s t then String.leb s t = true else String.leb t s = true.
Proof.
  unfold String.ltb, String.leb. rewrite (String.compare_antisym t s).
  by destruct (String.compare s t).
Qed.

Lemma plate_le_refl (a : option string) : plate_le a a.
Proof.
  destruct a as [s|]; [|done]. apply string_leb_iff. by left.
Qed.

Lemma plate_le_trans (a b c : option string) :
  plate_le a b → plate_le b c → plate_le a c.
Proof.
  destruct a, b, c; simpl; try done. apply string_leb_trans.
Qed.

#[local] Instance key_le_trans : Transitive key_le.
Proof.
  intros x y z [H1|[E1 P1]] [H2|[E2 P2]]; unfold key_le.
  - left. lia.
  - left. lia.
  - left. lia.
  - right. split; [congruence|]. by eapply plate_le_trans.
Qed.

(** A comparison of keys that returns orders them by [key_le], and is made
    between comparable dictionaries only; the one exception it raises is
    [TypeError]. *)
Lemma key_lt_ok (x y : reservation) (b : bool) :
  key_lt (sort_key x) (sort_key y) = Ok b →
  (if b then key_le x y else key_le y x) ∧ comparable x y.
Proof.
  unfold key_lt, sort_key, key_le, comparable; simpl.
  case_bool_decide as Hd.
  - case_bool_decide as Hp.
    + intros [= <-]. split; [|by rewrite Hp].
      right. split; [done|]. rewrite Hp. apply plate_le_refl.
    + destruct (carNo x) as [s|], (carNo y) as [t|]; simpl; try done.
      intros [= <-]. split; [|done].
      pose proof (string_ltb_leb s t) as Hle.
      destruct (String.ltb s t); right; split; done.
  - intros [= <-]. split; [|done].
    destruct (Z.ltb_spec (visitDate x) (visitDate y)); left; lia.
Qed.

Lemma key_lt_raise (x y : reservation) (e : exn) :
  key_lt (sort_key x) (sort_key y) = Raise e → e = TypeError.
Proof.
  unfold key_lt, plate_lt. repeat case_bool_decide; try done.
  destruct (sort_key x).2, (sort_key y).2; try done; by intros [= <-].
Qed.

Lemma key_le_comparable (x y : reservation) : key_le x y → comparable x y.
Proof.
  intros [Hlt|[_ Hp]] Hd; [lia|].
  destruct (carNo x), (carNo y); done.
Qed.

Lemma insert_ok (x : reservation) (l l' : list reservation) :
  StronglySorted key_le l → insert x l = Ok l' →
  StronglySorted key_le l' ∧ l' ≡ₚ x :: l ∧ Forall (comparable x) l.
Proof.
  revert l'. induction l as [|y l IH]; intros l' Hl; simpl.
  - intros [= <-]. repeat constructor.
  - apply StronglySorted_inv in Hl as [Hl Hy].
    unfold mbind, result_bind.
    destruct (key_lt (sort_key x) (sort_key y)) as [b|e] eqn:Hk; [|done].
    apply key_lt_ok in Hk as [Hxy Hc]. destruct b.
    + intros [= <-]. split; [|split; [done|]].
      * constructor; [by constructor|]. constructor; [done|].
        eapply Forall_impl; [exact Hy|]. intros z Hz. by etrans.
      * constructor; [done|].
        rewrite Forall_forall in Hy |- *. intros z Hz Hd.
        pose proof (key_le_comparable _ _ (Hy z Hz)) as Hyz.
        assert (visitDate x = visitDate y) as Hxd.
        { destruct Hxy as [?|[? _]], (Hy z Hz) as [?|[? _]]; lia. }
        rewrite (Hc Hxd). apply Hyz. congruence.
    + destruct (insert x l) as [l''|e] eqn:Hi; [|done].
      intros [= <-]. destruct (IH l'' Hl eq_refl) as (Hs & Hp & Hf).
      split; [|split].
      * constructor; [done|]. rewrite Hp. by constructor.
      * rewrite Hp. apply Permutation_swap.
      * by constructor.
Qed.

Lemma insert_raise (x : reservation) (l : list reservation) (e : exn) :
  insert x l = Raise e → e = TypeError.
Proof.
  induction l as [|y l IH]; simpl; [done|].
  unfold mbind, result_bind.
  destruct (key_lt (sort_key x) (sort_key y)) as [b|e'] eqn:Hk.
  - destruct b; [done|]. destruct (insert x l); [done|].
    intros [= <-]. by apply IH.
  - intros [= <-]. by eapply key_lt_raise.
Qed.

Lemma comparable_sym (x y : reservation) : comparable x y → comparable y x.
Proof. unfold comparable. intros H Hd. symmetry. apply H. done. Qed.

Lemma sort_raised (e : exn) (l : list reservation) :
  foldl (λ acc x, sorted ← acc; insert x sorted) (Raise e) l = Raise e.
Proof. induction l as [|y l IH]; [done|exact IH]. Qed.

(** The loop of [sort], from a sorted prefix [acc]. *)
Lemma sort_from (acc l : list reservation) :
  StronglySorted key_le acc →
  (∀ x y, x ∈ acc → y ∈ acc → comparable x y) →
  match foldl (λ acc x, sorted ← acc; insert x sorted) (Ok acc) l with
  | Ok l' =>
      StronglySorted key_le l' ∧ l' ≡ₚ acc ++ l
      ∧ (∀ x y, x ∈ acc ++ l → y ∈ acc ++ l → comparable x y)
  | Raise e => e = TypeError
  end.
Proof.
  revert acc. induction l as [|x l IH]; intros acc Hs Hc; simpl.
  - rewrite app_nil_r. done.
  - destruct (insert x acc) as [acc'|e] eqn:Hi.
    + destruct (insert_ok x acc acc' Hs Hi) as (Hs' & Hp & Hf).
      rewrite Forall_forall in Hf.
      assert (Hc' : ∀ y z, y ∈ acc' → z ∈ acc' → comparable y z).
      { intros y z. rewrite !Hp, !elem_of_cons.
        intros [->|Hy] [->|Hz]; auto using comparable_sym. done. }
      specialize (IH acc' Hs' Hc').
      destruct (foldl _ (Ok acc') l) as [l'|e]; [|done].
      destruct IH as (Hl' & Hp' & Hall).
      assert (acc' ++ l ≡ₚ acc ++ x :: l) as Hq.
      { rewrite Hp. simpl. by rewrite Permutation_middle. }
      split; [done|]. split; [by rewrite Hp'|].
      intros y z. rewrite <- !Hq. apply Hall.
    + apply insert_raise in Hi as ->. by rewrite sort_raised.
Qed.

Lemma sort_spec (l : list reservation) :
  match sort l with
  | Ok l' =>
      StronglySorted key_le l' ∧ l' ≡ₚ l
      ∧ (∀ x y, x ∈ l → y ∈ l → comparable x y)
  | Raise e => e = TypeError
  end.
Proof.
  apply (sort_from [] l); [constructor|]. intros x y Hx. by apply elem_of_nil in Hx.
Qed.

(** A day shared by a dictionary without a plate and one with a plate makes
    the sort raise [TypeError]. *)
Lemma sort_type_error (l : list reservation) (x y : reservation) :
  x ∈ l → y ∈ l → visitDate x = visitDate y →
  carNo x = None → carNo y ≠ None → sort l = Raise TypeError.
Proof.
  intros Hx Hy Hd Hnone Hsome. pose proof (sort_spec l) as H.
  destruct (sort l) as [l'|e]; [|by subst].
  destruct H as (_ & _ & Hc). destruct (Hc x y Hx Hy Hd) as [Hxy _]. tauto.
Qed.

Lemma key_lt_raise_incomparable (x y : reservation) (e : exn) :
  key_lt (sort_key x) (sort_key y) = Raise e → ¬ comparable x y.
Proof.
  unfold key_lt, plate_lt, sort_key, comparable; simpl.
  case_bool_decide as Hd; [|done]. case_bool_decide as Hp; [done|].
  destruct (carNo x) as [s|], (carNo y) as [t|]; try done;
    intros _ Hc; destruct (Hc Hd) as [H1 H2]; auto; by discriminate H1.
Qed.

Lemma insert_perm (x : reservation) (l l' : list reservation) :
  insert x l = Ok l' → l' ≡ₚ x :: l.
Proof.
  revert l'. induction l as [|y l IH]; intros l'; simpl.
  - by intros [= <-].
  - unfold mbind, result_bind.
    destruct (key_lt (sort_key x) (sort_key y)) as [[]|e]; [| |done].
    + by intros [= <-].
    + destruct (insert x l) as [l''|e]; [|done].
      intros [= <-]. rewrite (IH l'' eq_refl). apply Permutation_swap.
Qed.

Lemma insert_raise_incomparable (x : reservation) (l : list reservation)
    (e : exn) :
  insert x l = Raise e → ∃ y, y ∈ l ∧ ¬ comparable x y.
Proof.
  induction l as [|y l IH]; simpl; [done|].
  unfold mbind, result_bind.
  destruct (key_lt (sort_key x) (sort_key y)) as [[]|e'] eqn:Hk; [done| |].
  - destruct (insert x l) as [l''|e'']; [done|].
    intros [= ->]. destruct (IH eq_refl) as (z & Hz & Hc).
    exists z. split; [by right|done].
  - intros _. exists y. split; [left|].
    by eapply key_lt_raise_incomparable.
Qed.

(** The sort raises only when two of the dictionaries are not comparable:
    with [sort_spec], it returns exactly when Python can order every pair of
    keys, whichever pairs a sorting algorithm chooses to compare. *)
Lemma sort_raise_incomparable (l : list reservation) (e : exn) :
  sort l = Raise e → ∃ x y, x ∈ l ∧ y ∈ l ∧ ¬ comparable x y.
Proof.
  unfold sort.
  assert (Hgen : ∀ acc,
    foldl (λ acc x, sorted ← acc; insert x sorted) (Ok acc) l = Raise e →
    ∃ x y, x ∈ acc ++ l ∧ y ∈ acc ++ l ∧ ¬ comparable x y).
  { induction l as [|x l IH]; intros acc; simpl; [done|].
    destruct (insert x acc) as [acc'|e'] eqn:Hi.
    - intros Hr. destruct (IH acc' Hr) as (y & z & Hy & Hz & Hc).
      exists y, z. apply insert_perm in Hi.
      assert (acc' ++ l ≡ₚ acc ++ x :: l) as Hq.
      { rewrite Hi. simpl. by rewrite Permutation_middle. }
      by rewrite <- !Hq.
    - intros _. apply insert_raise_incomparable in Hi as (y & Hy & Hc).
      exists x, y. rewrite !elem_of_app, !elem_of_cons. auto. }
  apply Hgen.
Qed.

(** C6. Whatever the server answers, a list that [get_reservations] returns
    is sorted by day, and by plate among the reservations of one day. *)
Theorem get_reservations_sorted
    (server : list http_request → http_request → response)
    (strptime : string → option date) (today : date) (c c' : client)
    (l : list reservation) :
  get_reservations server strptime today c = (Ok l, c') →
  StronglySorted key_le l.
Proof.
  unfold get_reservations, mbind, M_bind, lift.
  destruct (pages_loop server strptime today 0 1 [] c) as [[rs|e] c1]; [|done].
  intros [= Hs _]. pose proof (sort_spec rs) as H. rewrite Hs in H. tauto.
Qed.

(** A run of C6: two pages, each out of order, come back as one sorted list. *)
Lemma get_reservations_sorted_witness :
  ∃ l c',
    get_reservations Sample.server_two_pages Sample.strptime Sample.today Sample.fresh
    = (Ok l, c')
    ∧ carNo <$> l = [Some "56C7890"; Some "12A3456"; Some "34B5678"]
    ∧ StronglySorted key_le l.
Proof.
  destruct (get_reservations Sample.server_two_pages Sample.strptime Sample.today
              Sample.fresh) as [out c'] eqn:E.
  assert (∃ l, out = Ok l) as [l ->].
  { vm_compute in E. injection E as <- _. by eexists. }
  exists l, c'. split; [done|]. split.
  - vm_compute in E. by injection E as <- _.
  - exact (get_reservations_sorted _ _ _ _ _ _ E).
Defined.

(** C10. Whenever the pages have been read and two of the reservations kept
    fall on the same day, one without a plate and one with a plate,
    [get_reservations] raises [TypeError] in its final sort; and a server
    whose one page holds two such entries makes it do so. *)
Theorem get_reservations_type_error :
  (∀ (server : list http_request → http_request → response)
     (strptime : string → option date) (today : date) (c c1 : client)
     (rs : list reservation) (x y : reservation),
     pages_loop server strptime today 0 1 [] c = (Ok rs, c1) →
     x ∈ rs → y ∈ rs → visitDate x = visitDate y →
     carNo x = None → carNo y ≠ None →
     get_reservations server strptime today c = (Raise TypeError, c1))
  ∧ (let body :=
       Sample.page (Some 1)
         [Sample.entry None "2030.01.02" None;
          Sample.entry (Some "12A3456") "2030.01.02" None] in
     ∃ x y c1,
       pages_loop (Sample.server_one_page body) Sample.strptime Sample.today 0 1 []
         Sample.logged_in = (Ok [x; y], c1)
       ∧ visitDate x = visitDate y
       ∧ carNo x = None ∧ carNo y = Some "12A3456"
       ∧ get_reservations (Sample.server_one_page body) Sample.strptime Sample.today
           Sample.logged_in = (Raise TypeError, c1)).
Proof.
  split.
  - intros server strptime today c c1 rs x y Hloop Hx Hy Hd Hn Hs.
    unfold get_reservations, mbind, M_bind, lift. rewrite Hloop.
    by rewrite (sort_type_error rs x y).
  - eexists _, _, _. vm_compute. done.
Qed.

(** A run of C10: the two reservations kept from the page share their day,
    and the fetch raises. *)
Lemma get_reservations_type_error_witness :
  (get_reservations
     (Sample.server_one_page
        (Sample.page (Some 1)
           [Sample.entry None "2030.01.02" None;
            Sample.entry (Some "12A3456") "2030.01.02" None]))
     Sample.strptime Sample.today Sample.logged_in).1 = Raise TypeError.
Proof.
  destruct (pages_loop
              (Sample.server_one_page
                 (Sample.page (Some 1)
                    [Sample.entry None "2030.01.02" None;
                     Sample.entry (Some "12A3456") "2030.01.02" None]))
              Sample.strptime Sample.today 0 1 [] Sample.logged_in)
    as [out c1] eqn:Hloop.
  assert (∃ x y, out = Ok [x; y] ∧ visitDate x = visitDate y
                 ∧ carNo x = None ∧ carNo y = Some "12A3456")
    as (x & y & -> & Hd & Hx & Hy).
  { vm_compute in Hloop. injection Hloop as <- _. by eexists _, _. }
  rewrite (proj1 get_reservations_type_error _ _ _ _ _ _ x y Hloop);
    [done|left|right; left|done|done|by rewrite Hy].
Defined.

(** ** The index of reserved days *)

Lemma date_add_cases (d : date) (n : Z) :
  date_add d n = Ok (d + n) ∨ date_add d n = Raise OverflowError.
Proof. unfold date_add. destruct (_ && _); [by left|by right]. Qed.

Lemma foldl_raise {A B : Type} (f : B → A → result B) (e : exn) (l : list A) :
  foldl (λ acc x, b ← acc; f b x) (Raise e) l = Raise e.
Proof. induction l as [|x l IH]; [done|]. simpl. exact IH. Qed.

(** The loop over the days of one reservation. *)
Lemma add_days_spec (v : option string) (base : date) (l : list Z)
    (reserved : gset (option string * date)) :
  match foldl (λ acc d, reserved ← acc;
                        day ← date_add base d;
                        Ok (reserved ∪ {[ (v, day) ]})) (Ok reserved) l with
  | Ok s =>
      (∀ p, p ∈ s ↔ p ∈ reserved ∨ ∃ i, i ∈ l ∧ p = (v, base + i))
      ∧ ∀ i, i ∈ l → date_add base i = Ok (base + i)
  | Raise e =>
      e = OverflowError ∧ ∃ i, i ∈ l ∧ date_add base i = Raise OverflowError
  end.
Proof.
  revert reserved. induction l as [|d l IH]; intros reserved.
  - simpl. split.
    + intros p. split; [by left|]. intros [?|(i & Hi & _)]; [done|].
      by apply elem_of_nil in Hi.
    + intros i Hi. by apply elem_of_nil in Hi.
  - cbn [foldl]. destruct (date_add_cases base d) as [Hd|Hd].
    + change (foldl ?f (reserved0 ← Ok reserved; day ← date_add base d;
                        Ok (reserved0 ∪ {[ (v, day) ]})) l)
        with (foldl f (day ← date_add base d;
                       Ok (reserved ∪ {[ (v, day) ]})) l).
      rewrite Hd.
      change (foldl ?f (day ← Ok (base + d); Ok (reserved ∪ {[ (v, day) ]})) l)
        with (foldl f (Ok (reserved ∪ {[ (v, base + d) ]})) l).
      specialize (IH (reserved ∪ {[ (v, base + d) ]})).
      destruct (foldl _ _ l) as [s|e].
      * destruct IH as [Hs Hfit]. split.
        -- intros p. rewrite Hs, elem_of_union, elem_of_singleton. split.
           ++ intros [[?| ->]|(i & Hi & ->)]; [by left| |].
              ** right. exists d. split; [left|done].
              ** right. exists i. split; [by right|done].
           ++ intros [?|(i & Hi & ->)]; [by left; left|].
              apply elem_of_cons in Hi as [->|Hi]; [by left; right|].
              right. by exists i.
        -- intros i [->|Hi]%elem_of_cons; [done|by apply Hfit].
      * destruct IH as (-> & i & Hi & Hr). split; [done|].
        exists i. split; [by right|done].
    + change (foldl ?f (reserved0 ← Ok reserved; day ← date_add base d;
                        Ok (reserved0 ∪ {[ (v, day) ]})) l)
        with (foldl f (day ← date_add base d;
                       Ok (reserved ∪ {[ (v, day) ]})) l).
      rewrite Hd.
      change (foldl ?f (day ← Raise OverflowError;
                        Ok (reserved ∪ {[ (v, day) ]})) l)
        with (foldl f (Raise OverflowError) l).
      rewrite (foldl_raise (λ reserved d, day ← date_add base d;
                                          Ok (reserved ∪ {[ (v, day) ]}))).
      split; [done|]. exists d. split; [left|done].
Qed.

(** The loop body of [get_reserved_dates] for one reservation.  It adds
    nothing when a plate is asked for and the reservation has another; else
    the plate with the days [visitDate + i] for [0 ≤ i < (days or 1)], and it
    raises [OverflowError] when one of these days is out of range. *)
Lemma add_reserved_spec (car_no : option string)
    (reserved : gset (option string * date)) (r : reservation) :
  match add_reserved car_no reserved r with
  | Ok s =>
      (∀ p, p ∈ s
            ↔ p ∈ reserved
              ∨ ((truthy car_no = false ∨ carNo r = car_no)
                 ∧ ∃ i, 0 ≤ i < or_1 (days r)
                        ∧ p = (carNo r, visitDate r + i)))
      ∧ ((truthy car_no = false ∨ carNo r = car_no) →
         ∀ i, 0 ≤ i < or_1 (days r) →
              date_add (visitDate r) i = Ok (visitDate r + i))
  | Raise e =>
      e = OverflowError
      ∧ (truthy car_no = false ∨ carNo r = car_no)
      ∧ ∃ i, 0 ≤ i < or_1 (days r)
             ∧ date_add (visitDate r) i = Raise OverflowError
  end.
Proof.
  unfold add_reserved.
  assert (Hin : ∀ i, i ∈ range (or_1 (days r)) ↔ 0 ≤ i < or_1 (days r)).
  { intros i. unfold range. rewrite elem_of_seqZ. lia. }
  assert (Hpass : truthy car_no = false ∨ carNo r = car_no →
    match foldl (λ acc d, reserved ← acc;
                          day ← date_add (visitDate r) d;
                          Ok (reserved ∪ {[ (carNo r, day) ]}))
            (Ok reserved) (range (or_1 (days r))) with
    | Ok s =>
        (∀ p, p ∈ s
              ↔ p ∈ reserved
                ∨ ((truthy car_no = false ∨ carNo r = car_no)
                   ∧ ∃ i, 0 ≤ i < or_1 (days r)
                          ∧ p = (carNo r, visitDate r + i)))
        ∧ ((truthy car_no = false ∨ carNo r = car_no) →
           ∀ i, 0 ≤ i < or_1 (days r) →
                date_add (visitDate r) i = Ok (visitDate r + i))
    | Raise e =>
        e = OverflowError
        ∧ (truthy car_no = false ∨ carNo r = car_no)
        ∧ ∃ i, 0 ≤ i < or_1 (days r)
               ∧ date_add (visitDate r) i = Raise OverflowError
    end).
  { intros Hp.
    pose proof (add_days_spec (carNo r) (visitDate r)
                  (range (or_1 (days r))) reserved) as H.
    destruct (foldl _ _ _) as [s|e].
    - destruct H as [Hs Hfit]. split.
      + intros p. rewrite Hs. split.
        * intros [?|(i & Hi & ->)]; [by left|]. right. split; [done|].
          exists i. by rewrite <- Hin.
        * intros [?|(_ & i & Hi & ->)]; [by left|]. right. exists i.
          by rewrite Hin.
      + intros _ i Hi. apply Hfit. by rewrite Hin.
    - destruct H as (-> & i & Hi & Hr). split; [done|]. split; [done|].
      exists i. by rewrite <- Hin. }
  destruct (truthy car_no) eqn:Ht; cbn [andb].
  - case_bool_decide as Hc; cbn [negb].
    + apply Hpass. by right.
    + split.
      * intros p. split; [by left|]. intros [?|([?|?] & _)]; done.
      * intros [?|?]; done.
  - apply Hpass. by left.
Qed.

(** The index built from a list of reservations.  When it is built, it holds
    exactly the pairs that the reservations contribute: for a day-span
    [N ≥ 1] the [N] days from the start, for a missing or zero day-span the
    start alone, and for a negative day-span nothing.  It is not built, and
    [OverflowError] is raised, exactly when one of these days is out of
    range. *)
Lemma index_of_spec (car_no : option string)
    (reservations : list reservation) :
  match index_of car_no reservations with
  | Ok s =>
      (∀ p, p ∈ s
            ↔ ∃ r, r ∈ reservations
                   ∧ (truthy car_no = false ∨ carNo r = car_no)
                   ∧ ∃ i, 0 ≤ i < or_1 (days r)
                          ∧ p = (carNo r, visitDate r + i))
      ∧ ∀ r, r ∈ reservations →
             truthy car_no = false ∨ carNo r = car_no →
             ∀ i, 0 ≤ i < or_1 (days r) →
                  date_add (visitDate r) i = Ok (visitDate r + i)
  | Raise e =>
      e = OverflowError
      ∧ ∃ r i, r ∈ reservations
               ∧ (truthy car_no = false ∨ carNo r = car_no)
               ∧ 0 ≤ i < or_1 (days r)
               ∧ date_add (visitDate r) i = Raise OverflowError
  end.
Proof.
  unfold index_of.
  assert (Hgen : ∀ reserved,
    match foldl (λ acc r, reserved ← acc; add_reserved car_no reserved r)
            (Ok reserved) reservations with
    | Ok s =>
        (∀ p, p ∈ s
              ↔ p ∈ reserved
                ∨ ∃ r, r ∈ reservations
                       ∧ (truthy car_no = false ∨ carNo r = car_no)
                       ∧ ∃ i, 0 ≤ i < or_1 (days r)
                              ∧ p = (carNo r, visitDate r + i))
        ∧ ∀ r, r ∈ reservations →
               truthy car_no = false ∨ carNo r = car_no →
               ∀ i, 0 ≤ i < or_1 (days r) →
                    date_add (visitDate r) i = Ok (visitDate r + i)
    | Raise e =>
        e = OverflowError
        ∧ ∃ r i, r ∈ reservations
                 ∧ (truthy car_no = false ∨ carNo r = car_no)
                 ∧ 0 ≤ i < or_1 (days r)
                 ∧ date_add (visitDate r) i = Raise OverflowError
    end).
  { induction reservations as [|r rs IH]; intros reserved.
    - simpl. split.
      + intros p. split; [by left|]. intros [?|(r & Hr & _)]; [done|].
        by apply elem_of_nil in Hr.
      + intros r Hr. by apply elem_of_nil in Hr.
    - cbn [foldl].
      change (reserved0 ← Ok reserved; add_reserved car_no reserved0 r)
        with (add_reserved car_no reserved r).
      pose proof (add_reserved_spec car_no reserved r) as Hr.
      destruct (add_reserved car_no reserved r) as [s1|e1].
      + destruct Hr as [Hs1 Hfit1]. specialize (IH s1).
        destruct (foldl _ (Ok s1) rs) as [s|e].
        * destruct IH as [Hs Hfit]. split.
          -- intros p. rewrite Hs, Hs1. split.
             ++ intros [[?|H1]|(r' & Hr' & H')]; [by left| |].
                ** right. exists r. split; [left|done].
                ** right. exists r'. split; [by right|done].
             ++ intros [?|(r' & Hr' & H')]; [by left; left|].
                apply elem_of_cons in Hr' as [->|Hr']; [by left; right|].
                right. by exists r'.
          -- intros r' [->|Hr']%elem_of_cons; [done|by apply Hfit].
        * destruct IH as (-> & r' & i & Hr' & H'). split; [done|].
          exists r', i. split; [by right|done].
      + rewrite (foldl_raise (add_reserved car_no)).
        destruct Hr as (-> & Hp & i & Hi & Hd). split; [done|].
        exists r, i. split; [left|done]. }
  specialize (Hgen ∅).
  destruct (foldl _ (Ok ∅) reservations) as [s|e]; [|done].
  destruct Hgen as [Hs Hfit]. split; [|done].
  intros p. rewrite Hs. split; [|by right]. intros [H|H]; [|done].
  by apply not_elem_of_empty in H.
Qed.

Lemma elem_of_reserved_dates (car_no : option string)
    (reservations : list reservation)
    (reserved : gset (option string * date)) (p : option string * date) :
  index_of car_no reservations = Ok reserved →
  p ∈ reserved
  ↔ ∃ r, r ∈ reservations
         ∧ (truthy car_no = false ∨ carNo r = car_no)
         ∧ ∃ i, 0 ≤ i < or_1 (days r) ∧ p = (carNo r, visitDate r + i).
Proof.
  intros H. pose proof (index_of_spec car_no reservations) as Hs.
  rewrite H in Hs. apply Hs.
Qed.

(** C1 at an entry with day-span [-1].  The reservation is fetched and kept,
    with its plate, its day and its day-span, and the index built from it is
    empty: the pair of the plate and the day, which a day-span treated as 1
    would give, is not in it. *)
Theorem get_reserved_dates_negative_span :
  let server :=
    Sample.server_one_page
      (Sample.page (Some 1)
         [Sample.entry (Some "12A3456") "2030.01.02" (Some (Some (-1)))]) in
  (∃ r c1,
     get_reservations server Sample.strptime Sample.today Sample.logged_in = (Ok [r], c1)
     ∧ carNo r = Some "12A3456" ∧ visitDate r = ymd2ord 2030 1 2
     ∧ days r = Some (-1))
  ∧ ∃ reserved c1,
      get_reserved_dates server Sample.strptime Sample.today None Sample.logged_in
      = (Ok reserved, c1)
      ∧ reserved = ∅
      ∧ ((Some "12A3456", ymd2ord 2030 1 2) ∉ reserved).
Proof.
  split.
  - eexists _, _. vm_compute. done.
  - exists ∅. eexists. split; [vm_compute; reflexivity|]. split; [done|].
    apply not_elem_of_empty.
Qed.

(** ** Fetching the pages *)

Lemma pages_loop_eq (server : list http_request → http_request → response)
    (strptime : string → option date) (today : date)
    (current_page total_pages : Z) (reservations : list reservation)
    (c : client) :
  pages_loop server strptime today current_page total_pages reservations c
  = if decide (current_page < total_pages) then
      match _request server "GET" (page_path (current_page + 1)) None c with
      | (Raise e, c') => (Raise e, c')
      | (Ok data, c') =>
          match process_page strptime today reservations data with
          | Raise e => (Raise e, c')
          | Ok reservations' =>
              if decide (50 ≤ current_page + 1) then (Ok reservations', c')
              else
                pages_loop server strptime today (current_page + 1)
                  (read_total_pages (current_page + 1) total_pages data)
                  reservations' c'
          end
      end
    else (Ok reservations, c).
Proof.
  funelim (pages_loop server strptime today current_page total_pages
             reservations c).
  all: repeat match goal with
              | H : decide _ = _ |- _ => rewrite H; clear H
              | H : _request _ _ _ _ _ = _ |- _ => rewrite H; clear H
              | H : process_page _ _ _ _ = _ |- _ => rewrite H; clear H
              end; done.
Qed.

Lemma process_item_keep (strptime : string → option date) (today : date)
    (reservations : list reservation) (item : Raw.item) :
  process_item strptime today reservations item
  = reservations ++ option_list (keep strptime today item).
Proof.
  unfold keep, process_item.
  destruct (Raw.visitDate item) as [s|]; [|by rewrite app_nil_r].
  destruct (strptime s) as [d|]; [|by rewrite app_nil_r].
  destruct (today <=? d); [done|by rewrite app_nil_r].
Qed.

(** A page whose list is [null] raises [TypeError]; any other page appends
    the reservations kept from its entries. *)
Lemma process_page_keep (strptime : string → option date) (today : date)
    (reservations : list reservation) (data : jobject) :
  process_page strptime today reservations data
  = match reserveList data with
    | Some None => Raise TypeError
    | _ => Ok (reservations ++ omap (keep strptime today) (entries data))
    end.
Proof.
  unfold process_page, entries.
  destruct (reserveList data) as [[items|]|]; [|done|by rewrite app_nil_r].
  f_equal. revert reservations.
  induction items as [|item items IH]; intros rs; simpl.
  - by rewrite app_nil_r.
  - rewrite IH, process_item_keep, <- app_assoc.
    by destruct (keep strptime today item).
Qed.

Lemma exchanges_request
    (server : list http_request → http_request → response)
    (method url authorization : string) (json_data : option payload)
    (log : list http_request) :
  exchanges server (Request method url authorization json_data :: log)
  = exchanges server log
    ++ [(url, status_code
                (server log (Request method url authorization json_data)))].
Proof. reflexivity. Qed.

Lemma exchanges_login
    (server : list http_request → http_request → response)
    (id password : string) (log : list http_request) :
  exchanges server (PostAuthToken id password :: log) = exchanges server log.
Proof. cbn [exchanges]. apply app_nil_r. Qed.

Lemma authenticate_exchanges
    (server : list http_request → http_request → response) (c : client) :
  exchanges server (_session (authenticate server c).2)
  = exchanges server (_session c).
Proof.
  destruct (authenticate_session server c) as (-> & _ & _).
  apply exchanges_login.
Qed.

(** The requests that [_request] leaves on the session, logins apart.  It
    sends its request once, and once more exactly when the first answer has
    status 401 and the login that follows succeeds.  Nothing is sent when
    the client has no token and the login that comes first fails. *)
Lemma request_exchanges
    (server : list http_request → http_request → response)
    (method path : string) (json_data : option payload) (c c' : client)
    (out : result jobject) :
  _request server method path json_data c = (out, c') →
  ∃ xs, exchanges server (_session c') = exchanges server (_session c) ++ xs
        ∧ ((xs = [] ∧ ∃ e, out = Raise e)
           ∨ (∃ status, xs = [(BASE_URL +:+ path, status)] ∧ status ≠ 401)
           ∨ (xs = [(BASE_URL +:+ path, 401)] ∧ ∃ e, out = Raise e)
           ∨ (∃ status, xs = [(BASE_URL +:+ path, 401);
                              (BASE_URL +:+ path, status)])).
Proof.
  assert (Hdone : ∀ c0, truthy (_token c0) = true →
    _request server method path json_data c0 = (out, c') →
    ∃ xs, exchanges server (_session c') = exchanges server (_session c0) ++ xs
          ∧ ((∃ status, xs = [(BASE_URL +:+ path, status)] ∧ status ≠ 401)
             ∨ (xs = [(BASE_URL +:+ path, 401)] ∧ ∃ e, out = Raise e)
             ∨ (∃ status, xs = [(BASE_URL +:+ path, 401);
                                (BASE_URL +:+ path, status)]))).
  { intros c0 Ht. rewrite request_run by done. cbv zeta.
    destruct (Z.eqb_spec
                (status_code
                   (server (_session c0)
                      (Request method (BASE_URL +:+ path) (bearer c0)
                         json_data))) 401) as [H401|H401].
    - pose proof (authenticate_exchanges server
                    (sent (Request method (BASE_URL +:+ path) (bearer c0)
                             json_data) c0)) as Hx.
      destruct (authenticate server _) as [[b|e] c2];
        cbn [snd sent _session] in Hx;
        rewrite exchanges_request, H401 in Hx; intros [= <- <-].
      + eexists. split; [|right; right; by eexists].
        cbn [sent _session]. rewrite exchanges_request, Hx, <- app_assoc.
        reflexivity.
      + eexists. split; [exact Hx|]. right; left. split; [done|by exists e].
    - intros [= <- <-]. eexists. split; [|left; by eexists].
      cbn [sent _session]. by rewrite exchanges_request. }
  destruct (truthy (_token c)) eqn:Ht.
  - intros H. destruct (Hdone c Ht H) as (xs & Hxs & Hs). exists xs.
    split; [done|by right].
  - rewrite request_login_first by done.
    pose proof (authenticate_exchanges server c) as Hx.
    destruct (authenticate server c) as [[b|e] c0] eqn:Ha; cbn [snd] in Hx.
    + intros H. apply authenticate_ok_token in Ha.
      destruct (Hdone c0 Ha H) as (xs & Hxs & Hs). exists xs.
      rewrite <- Hx. split; [done|by right].
    + intros [= <- <-]. exists []. rewrite app_nil_r. split; [done|].
      left. split; [done|by exists e].
Qed.

Lemma page_requests_cons (p : Z) (ps : list Z) (b xs : list (string * Z)) :
  (∃ status, b = [(page_url p, status)] ∧ status ≠ 401)
  ∨ (∃ status, b = [(page_url p, 401); (page_url p, status)]) →
  page_requests ps xs = true → page_requests (p :: ps) (b ++ xs) = true.
Proof.
  intros [(status & -> & Hs)|(status & ->)] Hxs; cbn [app page_requests];
    rewrite !bool_decide_eq_true_2 by reflexivity.
  - by rewrite (proj2 (Z.eqb_neq _ _) Hs).
  - by rewrite Z.eqb_refl.
Qed.

Lemma page_requests_last (p : Z) (b : list (string * Z)) :
  (∃ status, b = [(page_url p, status)])
  ∨ (∃ status, b = [(page_url p, 401); (page_url p, status)]) →
  page_requests [p] b = true.
Proof.
  intros [(status & ->)|(status & ->)]; cbn [page_requests];
    rewrite !bool_decide_eq_true_2 by reflexivity.
  - by destruct (status =? 401).
  - by rewrite Z.eqb_refl.
Qed.

(** Each page has one request, or two; two only after a 401. *)
Lemma page_requests_length (ps : list Z) (xs : list (string * Z)) :
  page_requests ps xs = true →
  (length ps ≤ length xs ≤ 2 * length ps)%nat.
Proof.
  revert xs. induction ps as [|p ps IH]; intros xs.
  - destruct xs; [cbn; lia|done].
  - destruct xs as [|[u status] xs]; [done|]. cbn [page_requests].
    intros [_ H]%andb_prop. destruct (status =? 401).
    + destruct xs as [|[u' status'] xs].
      * destruct ps; [cbn; lia|done].
      * apply andb_prop in H as [_ H]. apply IH in H. cbn [length] in *. lia.
    + apply IH in H. cbn [length] in *. lia.
Qed.

Lemma page_requests_no_retry (ps : list Z) (xs : list (string * Z)) :
  page_requests ps xs = true → Forall (λ x, x.2 ≠ 401) xs →
  xs.*1 = page_url <$> ps.
Proof.
  revert xs. induction ps as [|p ps IH]; intros xs.
  - by destruct xs.
  - destruct xs as [|[u status] xs]; [done|]. cbn [page_requests].
    intros [Hu H]%andb_prop [Hs Hall]%Forall_cons. cbn [snd] in Hs.
    apply bool_decide_eq_true_1 in Hu as ->.
    rewrite (proj2 (Z.eqb_neq _ _) Hs) in H.
    rewrite !fmap_cons. cbn [fst]. f_equal. by apply IH.
Qed.

(** The loop entered after a page has been read.  It requests the pages
    after [current_page] in turn, up to the lesser of [total_pages] and 50,
    unless it raises before: the exception is then that of the request for
    the next page, or the [TypeError] of a page whose list is [null]. *)
Lemma pages_loop_run
    (server : list http_request → http_request → response)
    (strptime : string → option date) (today : date)
    (current_page total_pages : Z) (reservations : list reservation)
    (c c' : client) (out : result (list reservation)) :
  1 ≤ current_page < 50 →
  pages_loop server strptime today current_page total_pages reservations c
  = (out, c') →
  ∃ ds c1 k xs,
    fetched server current_page c ds c1
    ∧ current_page + Z.of_nat (length ds) ≤ k
      ≤ current_page + Z.of_nat (length ds) + 1
    ∧ k ≤ current_page `max` (total_pages `min` 50)
    ∧ exchanges server (_session c') = exchanges server (_session c) ++ xs
    ∧ page_requests (seqZ (current_page + 1) (k - current_page)) xs = true
    ∧ match out with
      | Ok l =>
          c' = c1 ∧ k = current_page + Z.of_nat (length ds)
          ∧ k = current_page `max` (total_pages `min` 50)
          ∧ Forall iterable ds
          ∧ l = reservations ++ kept strptime today ds
      | Raise e =>
          (Forall iterable ds
           ∧ current_page + Z.of_nat (length ds) + 1
             ≤ current_page `max` (total_pages `min` 50)
           ∧ _request server "GET"
               (page_path (current_page + Z.of_nat (length ds) + 1)) None c1
             = (Raise e, c'))
          ∨ (c' = c1 ∧ k = current_page + Z.of_nat (length ds)
             ∧ e = TypeError
             ∧ ∃ ds0 data, ds = ds0 ++ [data] ∧ Forall iterable ds0
                           ∧ reserveList data = Some None)
      end.
Proof.
  remember (Z.to_nat (50 - current_page)) as n eqn:Hn.
  revert current_page reservations c Hn.
  induction n as [|n IH]; intros cp rs c Hn Hcp; [lia|].
  rewrite pages_loop_eq. destruct (decide (cp < total_pages)) as [Hlt|Hge].
  - destruct (_request server "GET" (page_path (cp + 1)) None c)
      as [[data|e] c2] eqn:Hreq;
      destruct (request_exchanges _ _ _ _ _ _ _ Hreq) as (b & Hb & Hshape);
      fold (page_url (cp + 1)) in Hshape.
    + assert (Hb' : (∃ status, b = [(page_url (cp + 1), status)]
                               ∧ status ≠ 401)
                    ∨ (∃ status, b = [(page_url (cp + 1), 401);
                                      (page_url (cp + 1), status)])).
      { destruct Hshape as [[_ [e He]]|[?|[[_ [e He]]|?]]]; auto; done. }
      assert (Hlast : page_requests (seqZ (cp + 1) (cp + 1 - cp)) b = true).
      { replace (cp + 1 - cp) with 1 by lia.
        apply page_requests_last.
        destruct Hb' as [(status & -> & _)|?]; [left; by eexists|by right]. }
      rewrite process_page_keep.
      destruct (reserveList data) as [[items|]|] eqn:Hlist.
      2:{ intros [= <- <-]. exists [data], c2, (cp + 1), b.
          split; [by repeat econstructor|]. cbn [length].
          split; [lia|]. split; [lia|]. split; [done|]. split; [done|].
          right. split; [done|]. split; [lia|]. split; [done|].
          exists [], data. by split; [|split; [constructor|]]. }
      all: assert (Hit : iterable data) by (unfold iterable; by rewrite Hlist).
      all: destruct (decide (50 ≤ cp + 1)) as [Hcap|Hcap].
      1,3: intros [= <- <-]; exists [data], c2, (cp + 1), b;
        (split; [by repeat econstructor|]); cbn [length];
        (split; [lia|]); (split; [lia|]); (split; [done|]); (split; [done|]);
        (split; [done|]); (split; [lia|]); (split; [lia|]);
        (split; [by constructor|]);
        unfold kept; cbn [mbind list_bind]; by rewrite app_nil_r.
      all: replace (read_total_pages (cp + 1) total_pages data)
             with total_pages
             by (unfold read_total_pages;
                 by rewrite (proj2 (Z.eqb_neq _ _)) by lia).
      all: intros Hrec;
        destruct (IH (cp + 1) _ c2 ltac:(lia) ltac:(lia) Hrec)
          as (ds & c1 & k & xs & Hds & Hk & Hmax & Hxs & Hreqs & Hout);
        exists (data :: ds), c1, k, (b ++ xs);
        (split; [by econstructor|]); cbn [length];
        (split; [lia|]); (split; [lia|]);
        (split; [by rewrite Hxs, Hb, app_assoc|]);
        (split;
         [rewrite seqZ_cons by lia;
          replace (Z.succ (cp + 1)) with (cp + 1 + 1) by lia;
          replace (Z.pred (k - cp)) with (k - (cp + 1)) by lia;
          by apply page_requests_cons|]).
      all: destruct out as [l|e].
      1,3: destruct Hout as (-> & Hk' & Hfull & Hall & ->);
        (split; [done|]); (split; [lia|]); (split; [lia|]);
        (split; [by constructor|]);
        unfold kept; cbn [mbind list_bind]; by rewrite <- app_assoc.
      all: destruct Hout
             as [(Hall & Hnext & Hr)
                |(-> & Hk' & -> & ds0 & d0 & -> & Hall & Hn0)].
      1,3: left; (split; [by constructor|]); (split; [lia|]);
        rewrite <- Hr; do 2 f_equal; lia.
      all: right; (split; [done|]); (split; [lia|]); (split; [done|]);
        exists (data :: ds0), d0;
        (split; [done|]); by split; [constructor|].
    + intros [= <- <-].
      destruct Hshape as [[-> _]|Hb'].
      * exists [], c, cp, []. split; [constructor|]. cbn [length].
        split; [lia|]. split; [lia|]. split; [done|].
        split; [by rewrite Z.sub_diag|].
        left. split; [constructor|]. split; [lia|].
        rewrite <- Hreq. do 2 f_equal. lia.
      * exists [], c, (cp + 1), b. split; [constructor|]. cbn [length].
        split; [lia|]. split; [lia|]. split; [done|].
        split.
        { replace (cp + 1 - cp) with 1 by lia. apply page_requests_last.
          destruct Hb' as [(status & -> & _)|[[-> _]|?]];
            [left; by eexists|left; by eexists|by right]. }
        left. split; [constructor|]. split; [lia|].
        rewrite <- Hreq. do 2 f_equal. lia.
  - intros [= <- <-]. exists [], c, cp, []. split; [constructor|].
    cbn [length]. split; [lia|]. split; [lia|].
    rewrite app_nil_r, Z.sub_diag. split; [done|]. split; [done|].
    split; [done|]. split; [lia|]. split; [lia|]. split; [constructor|].
    by rewrite app_nil_r.
Qed.

(** A run of [get_reservations], from the first page on.  [ds] are the
    pages whose request returned, [c1] is the client after them, and [k] is
    the number of pages for which a request was sent. *)
Lemma get_reservations_run
    (server : list http_request → http_request → response)
    (strptime : string → option date) (today : date) (c : client) :
  ∃ out c' ds c1 k,
    get_reservations server strptime today c = (out, c')
    ∧ fetched server 0 c ds c1
    ∧ Z.of_nat (length ds) ≤ k ≤ Z.of_nat (length ds) + 1
    ∧ k ≤ 50
    ∧ page_requests (seqZ 1 k) (new_exchanges server c c') = true
    ∧ (∀ data, head ds = Some data →
               k ≤ 1 `max` (or_1 (totalPages data) `min` 50))
    ∧ match out with
      | Ok l =>
          c' = c1 ∧ k = Z.of_nat (length ds) ∧ Forall iterable ds
          ∧ (∃ data, head ds = Some data
                     ∧ k = 1 `max` (or_1 (totalPages data) `min` 50))
          ∧ sort (kept strptime today ds) = Ok l
      | Raise e =>
          (Forall iterable ds
           ∧ (∀ data, head ds = Some data →
                Z.of_nat (length ds) + 1
                ≤ 1 `max` (or_1 (totalPages data) `min` 50))
           ∧ _request server "GET" (page_path (Z.of_nat (length ds) + 1))
               None c1
             = (Raise e, c'))
          ∨ (c' = c1 ∧ k = Z.of_nat (length ds) ∧ e = TypeError
             ∧ ((∃ ds0 data, ds = ds0 ++ [data] ∧ Forall iterable ds0
                             ∧ reserveList data = Some None)
                ∨ (Forall iterable ds
                   ∧ (∃ data, head ds = Some data
                              ∧ k = 1 `max` (or_1 (totalPages data) `min` 50))
                   ∧ sort (kept strptime today ds) = Raise TypeError)))
      end.
Proof.
  assert (Hnew : ∀ c' xs,
    exchanges server (_session c') = exchanges server (_session c) ++ xs →
    new_exchanges server c c' = xs).
  { intros c' xs Hxs. unfold new_exchanges. rewrite Hxs.
    apply drop_app_length. }
  unfold get_reservations, mbind, M_bind, lift.
  rewrite pages_loop_eq.
  destruct (decide (0 < 1)) as [_|]; [|lia].
  destruct (_request server "GET" (page_path (0 + 1)) None c)
    as [[data|e] c2] eqn:Hreq;
    destruct (request_exchanges _ _ _ _ _ _ _ Hreq) as (b & Hb & Hshape);
    fold (page_url (0 + 1)) in Hshape.
  - assert (Hb' : (∃ status, b = [(page_url 1, status)] ∧ status ≠ 401)
                  ∨ (∃ status, b = [(page_url 1, 401);
                                    (page_url 1, status)])).
    { destruct Hshape as [[_ [e He]]|[?|[[_ [e He]]|?]]]; auto; done. }
    assert (Hlast : page_requests (seqZ 1 1) b = true).
    { apply (page_requests_last 1).
      destruct Hb' as [(status & -> & _)|?]; [left; by eexists|by right]. }
    assert (Hfirst : fetched server 0 c [data] c2)
      by (by repeat econstructor).
    assert (reserveList data = Some None
            ∨ (iterable data
               ∧ process_page strptime today [] data
                 = Ok (omap (keep strptime today) (entries data))))
      as [Hnull|[Hit Hpage]].
    { rewrite process_page_keep. unfold iterable.
      destruct (reserveList data) as [[items|]|]; [right|left|right]; done. }
    { rewrite process_page_keep, Hnull.
      exists (Raise TypeError), c2, [data], c2, 1.
      split; [done|]. split; [done|]. cbn [length]. split; [lia|].
      split; [lia|]. split; [by rewrite (Hnew c2 b)|]. split.
      { intros ? [= <-]. lia. }
      right. split; [done|]. split; [done|]. split; [done|]. left.
      exists [], data. by split; [|split; [constructor|]]. }
    rewrite Hpage. clear Hpage.
    destruct (decide (50 ≤ 0 + 1)) as [|_]; [lia|].
    destruct (pages_loop server strptime today (0 + 1)
                (read_total_pages (0 + 1) 1 data)
                (omap (keep strptime today) (entries data)) c2)
      as [r c3] eqn:Hloop.
    destruct (pages_loop_run server strptime today (0 + 1) _ _ c2 c3 r
                ltac:(lia) Hloop)
      as (ds & c1 & k & xs & Hds & Hk & Hmax & Hxs & Hreqs & Hout).
    change (read_total_pages (0 + 1) 1 data) with (or_1 (totalPages data))
      in Hmax, Hout.
    assert (Hpages : page_requests (seqZ 1 k) (new_exchanges server c c3)
                     = true).
    { rewrite (Hnew c3 (b ++ xs)) by (by rewrite Hxs, Hb, app_assoc).
      rewrite seqZ_cons by lia.
      replace (Z.pred k) with (k - (0 + 1)) by lia.
      by apply page_requests_cons. }
    assert (Hall : ∀ ds', Forall iterable ds' → Forall iterable (data :: ds'))
      by (intros ds' H; by constructor).
    assert (Hkept : ∀ ds', omap (keep strptime today) (entries data)
                           ++ kept strptime today ds'
                           = kept strptime today (data :: ds')) by done.
    exists (match r with Ok rs => sort rs | Raise e => Raise e end), c3,
      (data :: ds), c1, k.
    split; [by destruct r|]. split; [by econstructor|]. cbn [length].
    split; [lia|]. split; [lia|]. split; [done|].
    split; [intros ? [= <-]; lia|].
    destruct r as [rs|e].
    + destruct Hout as (-> & Hk' & Hfull & Hit' & ->). rewrite Hkept.
      pose proof (sort_spec (kept strptime today (data :: ds))) as Hsort.
      destruct (sort (kept strptime today (data :: ds))) as [l|e] eqn:Hs.
      * split; [done|]. split; [lia|]. split; [by apply Hall|].
        split; [|done]. exists data. split; [done|lia].
      * subst e. right. split; [done|]. split; [lia|]. split; [done|]. right.
        split; [by apply Hall|]. split; [|done].
        exists data. split; [done|lia].
    + destruct Hout
        as [(Hit' & Hnext & Hr)
           |(-> & Hk' & -> & ds0 & d0 & -> & Hit' & Hn0)].
      * left. split; [by apply Hall|].
        split; [intros ? [= <-]; lia|].
        rewrite <- Hr. do 2 f_equal. lia.
      * right. split; [done|]. split; [lia|]. split; [done|]. left.
        exists (data :: ds0), d0. split; [done|]. split; [by apply Hall|done].
  - destruct Hshape as [[-> _]|Hb'].
    + exists (Raise e), c2, [], c, 0. split; [done|]. split; [constructor|].
      cbn [length]. split; [lia|]. split; [lia|].
      split; [by rewrite (Hnew c2 [])|]. split; [done|].
      left. split; [constructor|]. split; [done|]. exact Hreq.
    + exists (Raise e), c2, [], c, 1. split; [done|]. split; [constructor|].
      cbn [length]. split; [lia|]. split; [lia|]. split.
      { rewrite (Hnew c2 b) by done. apply (page_requests_last 1).
        destruct Hb' as [(status & -> & _)|[[-> _]|?]];
          [left; by eexists|left; by eexists|by right]. }
      split; [done|]. left. split; [constructor|]. split; [done|].
      exact Hreq.
Qed.

(** C5, as amended.  [get_reservations] returns or raises on every client
    and server.  It requests the pages 1, 2, ... in turn, each through one
    call of [_request]: [ds] are the pages read and [k ≤ 50] is the number
    of pages for which a GET was sent.  The GET of a page is sent once, and
    once more exactly when it was answered with 401, unless the fetch ends
    there because the login that follows fails; so there are at most [2 * k]
    of them, and exactly [k] when none is answered with 401.  Once page 1
    has been read, [k] is at most the total read from it (taken as 1 when
    missing or zero) capped at 50, which is [N] when page 1 reports
    [totalPages = N] with [1 ≤ N ≤ 50]; and [k] is exactly that number when
    the fetch returns a list.  The fetch ends earlier only by raising: the
    exception is that of the request for the next page (or of the login it
    needs), or the [TypeError] of a page whose list is [null]; after all the
    pages it can still raise the [TypeError] of the final sort. *)
Theorem get_reservations_page_requests
    (server : list http_request → http_request → response)
    (strptime : string → option date) (today : date) (c : client) :
  ∃ out c' ds c1 k,
    get_reservations server strptime today c = (out, c')
    ∧ fetched server 0 c ds c1
    ∧ Z.of_nat (length ds) ≤ k ≤ Z.of_nat (length ds) + 1
    ∧ 0 ≤ k ≤ 50
    ∧ page_requests (seqZ 1 k) (new_exchanges server c c') = true
    ∧ k ≤ Z.of_nat (length (new_exchanges server c c')) ≤ 2 * k
    ∧ (Forall (λ x, x.2 ≠ 401) (new_exchanges server c c') →
       (new_exchanges server c c').*1 = page_url <$> seqZ 1 k)
    ∧ (∀ data, head ds = Some data →
         k ≤ 1 `max` (or_1 (totalPages data) `min` 50)
         ∧ ∀ N, totalPages data = Some N → 1 ≤ N ≤ 50 → k ≤ N)
    ∧ match out with
      | Ok l =>
          c' = c1 ∧ k = Z.of_nat (length ds) ∧ Forall iterable ds
          ∧ ∃ data, head ds = Some data
                    ∧ k = 1 `max` (or_1 (totalPages data) `min` 50)
                    ∧ ∀ N, totalPages data = Some N → 1 ≤ N ≤ 50 → k = N
      | Raise e =>
          (Forall iterable ds
           ∧ (∀ data, head ds = Some data →
                Z.of_nat (length ds) + 1
                ≤ 1 `max` (or_1 (totalPages data) `min` 50))
           ∧ _request server "GET" (page_path (Z.of_nat (length ds) + 1))
               None c1
             = (Raise e, c'))
          ∨ (c' = c1 ∧ k = Z.of_nat (length ds) ∧ e = TypeError
             ∧ ((∃ ds0 data, ds = ds0 ++ [data] ∧ Forall iterable ds0
                             ∧ reserveList data = Some None)
                ∨ (Forall iterable ds
                   ∧ (∃ data, head ds = Some data
                              ∧ k = 1 `max` (or_1 (totalPages data) `min` 50))
                   ∧ sort (kept strptime today ds) = Raise TypeError)))
      end.
Proof.
  assert (HN : ∀ data N, totalPages data = Some N → 1 ≤ N ≤ 50 →
                         1 `max` (or_1 (totalPages data) `min` 50) = N).
  { intros data N -> HN. unfold or_1. destruct (Z.eqb_spec N 0); lia. }
  destruct (get_reservations_run server strptime today c)
    as (out & c' & ds & c1 & k & Hrun & Hds & Hk & H50 & Hreqs & Hmax & Hout).
  exists out, c', ds, c1, k.
  split; [exact Hrun|]. split; [exact Hds|]. split; [exact Hk|].
  split; [lia|]. split; [exact Hreqs|].
  split.
  { pose proof (page_requests_length _ _ Hreqs) as Hl.
    rewrite length_seqZ in Hl. lia. }
  split; [by apply page_requests_no_retry|].
  split.
  { intros data Hd. specialize (Hmax data Hd). split; [exact Hmax|].
    intros N HtN HrN. rewrite (HN data N HtN HrN) in Hmax. exact Hmax. }
  destruct out as [l|e]; [|exact Hout].
  destruct Hout as (Hc & Hkl & Hit & (data & Hd & Hfull) & _).
  split; [exact Hc|]. split; [exact Hkl|]. split; [exact Hit|].
  exists data. split; [exact Hd|]. split; [exact Hfull|].
  intros N HtN HrN. by rewrite <- (HN data N HtN HrN).
Qed.

(** C5 as stated fails: page 1 reports three pages and the request for
    page 2 is refused with status 500, so that the fetch ends after two page
    requests. *)
Lemma get_reservations_fewer_requests :
  ¬ (∀ (server : list http_request → http_request → response)
       (strptime : string → option date) (today : date) (c c1 : client)
       (data : jobject) (N : Z),
       _request server "GET" (page_path 1) None c = (Ok data, c1) →
       totalPages data = Some N → 1 ≤ N ≤ 50 →
       page_requests (seqZ 1 N)
         (new_exchanges server c (get_reservations server strptime today c).2)
       = true).
Proof.
  intros H.
  specialize (H Sample.server_second_page_down Sample.strptime Sample.today
                Sample.logged_in
                (sent (Request "GET" (page_url 1) "Bearer t0" None)
                   Sample.logged_in)
                (Sample.page (Some 3) []) 3 eq_refl eq_refl ltac:(lia)).
  vm_compute in H. done.
Qed.

(** A run of C5: page 1 reports two pages, and two page requests are sent,
    one GET each. *)
Lemma get_reservations_page_requests_witness :
  ∃ out c',
    get_reservations Sample.server_two_pages Sample.strptime Sample.today
      Sample.fresh = (out, c')
    ∧ (new_exchanges Sample.server_two_pages Sample.fresh c').*1
      = [page_url 1; page_url 2].
Proof.
  destruct (get_reservations_page_requests Sample.server_two_pages
              Sample.strptime Sample.today Sample.fresh)
    as (out & c' & ds & c1 & k & Hrun & Hds & _ & _ & _ & _ & Hno & _ & Hout).
  exists out, c'. split; [exact Hrun|].
  assert (∃ l, out = Ok l) as [l ->].
  { vm_compute in Hrun. injection Hrun as <- _. by eexists. }
  destruct Hout as (_ & Hk & _ & data & Hd & _ & HN).
  assert (totalPages data = Some 2) as Hd2.
  { inversion Hds as [|? ? d0 c2 ds' ? Hreq Hrest]; subst; [done|].
    injection Hd as ->. vm_compute in Hreq. by injection Hreq as <- _. }
  rewrite (HN 2 Hd2 ltac:(lia)) in Hno. apply Hno.
  vm_compute in Hrun. injection Hrun as _ <-. vm_compute.
  repeat constructor; done.
Defined.

(** ** Entries that do not parse *)

Lemma keep_unparseable (strptime : string → option date) (today : date)
    (item : Raw.item) :
  ¬ parses strptime item → keep strptime today item = None.
Proof.
  unfold parses, keep, process_item.
  destruct (Raw.visitDate item) as [s|]; simpl; [|done].
  destruct (strptime s) as [d|]; [|done].
  intros []. by eexists.
Qed.

Lemma omap_keep_filter (strptime : string → option date) (today : date)
    (items : list Raw.item) :
  omap (keep strptime today) (filter (parses strptime) items)
  = omap (keep strptime today) items.
Proof.
  induction items as [|item items IH]; [done|].
  rewrite filter_cons. destruct (decide (parses strptime item)) as [Hp|Hp].
  - change (omap ?f (?x :: ?l))
      with (match f x with Some y => y :: omap f l | None => omap f l end).
    by rewrite IH.
  - change (omap ?f (item :: ?l))
      with (match f item with Some y => y :: omap f l | None => omap f l end).
    by rewrite (keep_unparseable _ _ _ Hp).
Qed.

Lemma process_page_without_unparseable (strptime : string → option date)
    (today : date) (reservations : list reservation) (data : jobject) :
  process_page strptime today reservations (without_unparseable strptime data)
  = process_page strptime today reservations data.
Proof.
  rewrite !process_page_keep. unfold without_unparseable, entries; simpl.
  destruct (reserveList data) as [[items|]|]; [|done|done].
  simpl. by rewrite omap_keep_filter.
Qed.

Lemma authenticate_drop (server : list http_request → http_request → response)
    (strptime : string → option date) (c : client) :
  authenticate (λ h r, drop_unparseable strptime (server h r)) c
  = authenticate server c.
Proof.
  rewrite !authenticate_run. cbv zeta. simpl.
  destruct (400 <=? _); [done|].
  by destruct (json _).
Qed.

Lemma outcome_drop (strptime : string → option date) (resp : response) :
  outcome (drop_unparseable strptime resp)
  = match outcome resp with
    | Ok data => Ok (without_unparseable strptime data)
    | Raise e => Raise e
    end.
Proof.
  unfold outcome, request_failed; simpl.
  destruct (400 <=? _); [done|]. by destruct (json resp).
Qed.

(** A request to the server that drops the entries that do not parse goes
    as the request to the server itself, and returns its body without those
    entries. *)
Lemma request_drop (server : list http_request → http_request → response)
    (strptime : string → option date) (method path : string)
    (json_data : option payload) (c : client) :
  _request (λ h r, drop_unparseable strptime (server h r)) method path
    json_data c
  = match _request server method path json_data c with
    | (Ok data, c') => (Ok (without_unparseable strptime data), c')
    | (Raise e, c') => (Raise e, c')
    end.
Proof.
  assert (Hdone : ∀ c0, truthy (_token c0) = true →
    _request (λ h r, drop_unparseable strptime (server h r)) method path
      json_data c0
    = match _request server method path json_data c0 with
      | (Ok data, c') => (Ok (without_unparseable strptime data), c')
      | (Raise e, c') => (Raise e, c')
      end).
  { intros c0 Ht. rewrite !request_run by done. cbv zeta.
    rewrite authenticate_drop, !outcome_drop.
    change (status_code (drop_unparseable strptime ?r)) with (status_code r).
    destruct (status_code _ =? 401).
    - destruct (authenticate server _) as [[b|e] c2]; [|done].
      rewrite outcome_drop. by destruct (outcome _).
    - by destruct (outcome _). }
  destruct (truthy (_token c)) eqn:Ht; [by apply Hdone|].
  rewrite !request_login_first by done. rewrite authenticate_drop.
  destruct (authenticate server c) as [[b|e] c0] eqn:Ha; [|done].
  apply Hdone. by eapply authenticate_ok_token.
Qed.

Lemma pages_loop_drop (server : list http_request → http_request → response)
    (strptime : string → option date) (today : date)
    (current_page total_pages : Z) (reservations : list reservation)
    (c : client) :
  pages_loop (λ h r, drop_unparseable strptime (server h r)) strptime today
    current_page total_pages reservations c
  = pages_loop server strptime today current_page total_pages reservations c.
Proof.
  remember (Z.to_nat (50 - current_page)) as n eqn:Hn.
  revert current_page total_pages reservations c Hn.
  induction n as [|n IH]; intros cp tp rs c Hn;
    rewrite (pages_loop_eq server), (pages_loop_eq (λ h r, _));
    (destruct (decide (cp < tp)) as [Hlt|Hge]; [|done]);
    rewrite request_drop;
    (destruct (_request server "GET" (page_path (cp + 1)) None c)
       as [[data|e] c1]; [|done]);
    rewrite process_page_without_unparseable;
    (destruct (process_page strptime today rs data) as [rs'|e]; [|done]);
    (destruct (decide (50 ≤ cp + 1)) as [Hcap|Hcap]; [done|]).
  - lia.
  - apply IH. lia.
Qed.

(** C7. The entries of the pages whose day does not parse never change
    what [get_reservations] does: on a server that leaves them out it returns
    or raises the same, with the same requests sent.  When it returns, its
    list holds, up to the final sort, the reservations kept from the pages
    that were read, page by page; an entry that does not parse gives none,
    and an entry that parses gives its reservation when its day is today or
    later. *)
Theorem get_reservations_skips_unparseable
    (server : list http_request → http_request → response)
    (strptime : string → option date) (today : date) (c : client) :
  get_reservations (λ h r, drop_unparseable strptime (server h r)) strptime
    today c
  = get_reservations server strptime today c
  ∧ (∀ l c', get_reservations server strptime today c = (Ok l, c') →
       ∃ ds, fetched server 0 c ds c' ∧ l ≡ₚ kept strptime today ds)
  ∧ (∀ item, ¬ parses strptime item → keep strptime today item = None)
  ∧ (∀ item s d, Raw.visitDate item = Some s → strptime s = Some d →
       keep strptime today item
       = if today <=? d then
           Some {| idx := Raw.visitReserveIdx item;
                   carNo := Raw.carNo item;
                   visitDate := d;
                   visitDateStr := s;
                   purpose := Raw.purpose item;
                   phone := Raw.phone item;
                   days := match Raw.days item with
                           | None => Some 1
                           | Some v => v
                           end |}
         else None).
Proof.
  split; [|split; [|split]].
  - unfold get_reservations, mbind, M_bind. by rewrite pages_loop_drop.
  - intros l c' Hrun.
    destruct (get_reservations_run server strptime today c)
      as (out & c2 & ds & c1 & k & Hrun' & Hds & _ & _ & _ & _ & Hout).
    rewrite Hrun in Hrun'. injection Hrun' as <- <-.
    destruct Hout as (-> & _ & _ & _ & Hs).
    exists ds. split; [done|].
    pose proof (sort_spec (kept strptime today ds)) as H.
    rewrite Hs in H. tauto.
  - apply keep_unparseable.
  - intros item s d Hs Hd. unfold keep, process_item. rewrite Hs, Hd.
    by destruct (today <=? d).
Qed.

(** A run of C7: the second page has an entry whose day does not parse,
    next to one that does.  The fetch returns the three reservations of the
    entries that parse, as it does when the server leaves the other out. *)
Lemma get_reservations_skips_unparseable_witness :
  keep Sample.strptime Sample.today (Sample.entry (Some "90Z0000") "2030/01/01" None)
  = None
  ∧ ∃ l c',
      get_reservations
        (λ h r, drop_unparseable Sample.strptime (Sample.server_two_pages h r))
        Sample.strptime Sample.today Sample.fresh = (Ok l, c')
      ∧ get_reservations Sample.server_two_pages Sample.strptime Sample.today Sample.fresh
        = (Ok l, c')
      ∧ carNo <$> l = [Some "56C7890"; Some "12A3456"; Some "34B5678"].
Proof.
  destruct (get_reservations_skips_unparseable Sample.server_two_pages
              Sample.strptime Sample.today Sample.fresh) as (Hsame & _ & Hbad & _).
  split.
  - apply Hbad. intros [d Hd]. vm_compute in Hd. discriminate.
  - rewrite Hsame. eexists _, _. split; [vm_compute; reflexivity|].
    split; reflexivity.
Defined.

(** * Further properties of the client *)

(** ** Logging in and authorized requests *)

Lemma truthy_Some (t : option string) :
  truthy t = true ↔ ∃ s, t = Some s ∧ s ≠ "".
Proof.
  destruct t as [s|]; simpl.
  - rewrite negb_true_iff. split.
    + intros Hs. exists s. split; [done|]. intros ->. done.
    + intros (s' & [= <-] & Hne). by apply String.eqb_neq.
  - split; [done|]. by intros (s & ? & _).
Qed.

(** What a login sends and leaves behind. *)
Lemma authenticate_sends
    (server : list http_request → http_request → response)
    (c c' : client) (out : result bool) :
  authenticate server c = (out, c') →
  _session c' = PostAuthToken (_id c) (_password c) :: _session c
  ∧ _id c' = _id c ∧ _password c' = _password c
  ∧ match out with
    | Ok b =>
        b = true ∧ truthy (_token c') = true
        ∧ ∃ data,
            json (server (_session c) (PostAuthToken (_id c) (_password c)))
            = Some data
            ∧ _token c' = accessToken data
    | Raise _ => _token c' = _token c
    end.
Proof.
  rewrite authenticate_run. cbv zeta.
  destruct (400 <=? _); [by intros [= <- <-]|].
  destruct (json _) as [data|]; [|by intros [= <- <-]].
  destruct (truthy (accessToken data)) eqn:Ht; intros [= <- <-]; [|done].
  repeat split; try done. by exists data.
Qed.

(** X1. A login sends exactly one request, with the identifier and the
    password of the client, and changes neither of them.  When it returns,
    it returns [True] and the client holds the token of the answer, which is
    not empty; when it raises, the token that the client held is still
    there. *)
Theorem authenticate_effects
    (server : list http_request → http_request → response)
    (c c' : client) (out : result bool) :
  authenticate server c = (out, c') →
  _session c' = PostAuthToken (_id c) (_password c) :: _session c
  ∧ _id c' = _id c ∧ _password c' = _password c
  ∧ match out with
    | Ok b =>
        b = true ∧ truthy (_token c') = true
        ∧ ∃ data,
            json (server (_session c) (PostAuthToken (_id c) (_password c)))
            = Some data
            ∧ _token c' = accessToken data
    | Raise _ => _token c' = _token c
    end.
Proof.
  intros Hrun.
  destruct (authenticate_sends server c c' out Hrun) as (Hs & Hi & Hp & Ht).
  split_and!; [exact Hs|exact Hi|exact Hp|].
  destruct out as [b|e]; exact Ht.
Qed.

(** A run of X1: a refused login keeps the token [t0]. *)
Lemma authenticate_effects_witness :
  _token (authenticate Sample.server_login_down Sample.logged_in).2
  = Some "t0".
Proof.
  destruct (authenticate Sample.server_login_down Sample.logged_in)
    as [out c'] eqn:E.
  pose proof (authenticate_effects _ _ _ _ E) as (_ & _ & _ & H).
  assert (∃ e, out = Raise e) as [e ->].
  { vm_compute in E. injection E as <- _. by eexists. }
  exact H.
Defined.

(** X2. When the first response to an authorized request has a status
    other than 401, nothing more is sent: no login and no second attempt.  A
    status of 400 or more raises [AptnerError] with the status and the body,
    and any other status returns the body, or the empty dictionary. *)
Theorem request_without_retry
    (server : list http_request → http_request → response)
    (method path : string) (json_data : option payload) (c c0 : client) :
  ready server c c0 →
  let first := Request method (BASE_URL +:+ path) (bearer c0) json_data in
  let resp := server (_session c0) first in
  status_code resp ≠ 401 →
  _request server method path json_data c
  = (if 400 <=? status_code resp then
       Raise (AptnerError ("Request failed: " +:+ str (status_code resp)
                           +:+ " - " +:+ text resp))
     else Ok (default empty_dict (json resp)),
     sent first c0).
Proof.
  intros Hc first resp H401.
  destruct (request_ready server method path json_data c c0 Hc) as [Ht ->].
  rewrite request_run by done. cbv zeta. fold first. fold resp.
  by rewrite (proj2 (Z.eqb_neq _ _) H401).
Qed.

(** A run of X2: a status 403 is not retried. *)
Lemma request_without_retry_witness :
  _request (λ _ _, Sample.reject 403 "no") "GET" "/x" None Sample.logged_in
  = (Raise (AptnerError "Request failed: 403 - no"),
     sent (Request "GET" "https://v2.aptner.com/x" "Bearer t0" None)
       Sample.logged_in).
Proof.
  apply (request_without_retry (λ _ _, Sample.reject 403 "no") "GET" "/x" None
           Sample.logged_in Sample.logged_in); [by left|done].
Defined.

Lemma logins_login (id password : string) (log : list http_request) :
  logins (PostAuthToken id password :: log) = S (logins log).
Proof. unfold logins. by rewrite filter_cons_True by done. Qed.

Lemma logins_request (method url authorization : string)
    (json_data : option payload) (log : list http_request) :
  logins (Request method url authorization json_data :: log) = logins log.
Proof. unfold logins. by rewrite filter_cons_False by done. Qed.

Lemma logins_app (l1 l2 : list http_request) :
  logins (l1 ++ l2) = (logins l1 + logins l2)%nat.
Proof. unfold logins. by rewrite filter_app, length_app. Qed.

Lemma bearer_token (c : client) :
  truthy (_token c) = true → ∃ t, t ≠ "" ∧ bearer c = "Bearer " +:+ t.
Proof.
  intros (s & Hs & Hne)%truthy_Some. exists s. split; [done|].
  unfold bearer. by rewrite Hs.
Qed.

(** What one call of [_request] sends and leaves behind. *)
Lemma request_sends
    (server : list http_request → http_request → response)
    (method path : string) (json_data : option payload) (c c' : client)
    (out : result jobject) :
  _request server method path json_data c = (out, c') →
  ∃ new,
    _session c' = new ++ _session c
    ∧ (length new ≤ 4)%nat
    ∧ (logins new ≤ 2)%nat
    ∧ (length (filter (λ r, is_login r = false) new) ≤ 2)%nat
    ∧ Forall (λ r, r = PostAuthToken (_id c) (_password c)
                   ∨ ∃ t, t ≠ ""
                          ∧ r = Request method (BASE_URL +:+ path)
                                  ("Bearer " +:+ t) json_data) new
    ∧ _id c' = _id c ∧ _password c' = _password c
    ∧ ((∃ data, out = Ok data) → truthy (_token c') = true).
Proof.
  assert (Hdone : ∀ c0, truthy (_token c0) = true →
    _request server method path json_data c0 = (out, c') →
    ∃ new,
      _session c' = new ++ _session c0
      ∧ (length new ≤ 3)%nat
      ∧ (logins new ≤ 1)%nat
      ∧ (length (filter (λ r, is_login r = false) new) ≤ 2)%nat
      ∧ Forall (λ r, r = PostAuthToken (_id c0) (_password c0)
                     ∨ ∃ t, t ≠ ""
                            ∧ r = Request method (BASE_URL +:+ path)
                                    ("Bearer " +:+ t) json_data) new
      ∧ _id c' = _id c0 ∧ _password c' = _password c0
      ∧ truthy (_token c') = true).
  { intros c0 Ht. rewrite request_run by done. cbv zeta.
    destruct (bearer_token c0 Ht) as (t & Hne & Hb). rewrite Hb.
    set (first := Request method (BASE_URL +:+ path) ("Bearer " +:+ t)
                    json_data).
    assert (Hfirst : ∃ t0, t0 ≠ "" ∧ first = Request method (BASE_URL +:+ path)
                                               ("Bearer " +:+ t0) json_data)
      by (by exists t).
    destruct (status_code _ =? 401).
    - destruct (authenticate server (sent first c0)) as [r c2] eqn:Ha.
      pose proof (authenticate_sends _ _ _ _ Ha) as (Hs & Hi & Hp & Hr).
      simpl in Hs, Hi, Hp.
      destruct r as [b|e].
      + destruct Hr as (_ & Ht2 & _).
        destruct (bearer_token c2 Ht2) as (t2 & Hne2 & Hb2). rewrite Hb2.
        intros [= <- <-].
        eexists [_; _; _]. simpl. rewrite Hs.
        split; [done|]. split; [lia|]. split.
        { vm_compute. lia. }
        split.
        { vm_compute. lia. }
        split; [|done].
        rewrite !Forall_cons, Forall_nil.
        split_and!; [right; by exists t2|by left|by right|done].
      + intros [= <- <-].
        eexists [_; _]. rewrite Hs. split; [done|]. split; [simpl; lia|].
        split.
        { vm_compute. lia. }
        split.
        { vm_compute. lia. }
        split; [|simpl in Hr; by rewrite Hr].
        rewrite !Forall_cons, Forall_nil. split_and!; [by left|by right|done].
    - intros [= <- <-]. exists [first]. simpl.
      split; [done|]. split; [lia|]. split.
      { vm_compute. lia. }
      split.
      { vm_compute. lia. }
      split; [|done]. rewrite Forall_cons, Forall_nil. split; [by right|done]. }
  destruct (truthy (_token c)) eqn:Ht.
  - intros H. destruct (Hdone c Ht H)
      as (new & Hs & Hl & Hf & Hown & Hall & Hi & Hp & Htok).
    exists new. repeat split; try done; lia.
  - rewrite request_login_first by done.
    destruct (authenticate server c) as [r c0] eqn:Ha.
    pose proof (authenticate_sends _ _ _ _ Ha) as (Hs & Hi & Hp & Hr).
    destruct r as [b|e].
    + destruct Hr as (_ & Ht0 & _). intros H.
      destruct (Hdone c0 Ht0 H)
        as (new & Hs' & Hl & Hf & Hown & Hall & Hi' & Hp' & Htok).
      rewrite Hi, Hp in Hall.
      exists (new ++ [PostAuthToken (_id c) (_password c)]).
      rewrite <- app_assoc. simpl. rewrite <- Hs.
      split; [done|]. split; [rewrite length_app; simpl; lia|].
      split.
      { rewrite logins_app, logins_login. cbn. lia. }
      split.
      { rewrite filter_app, length_app.
        change (length (filter (λ r, is_login r = false)
                          [PostAuthToken (_id c) (_password c)])) with 0%nat.
        lia. }
      split.
      { apply Forall_app. split; [done|].
        rewrite Forall_cons, Forall_nil. split; [by left|done]. }
      split; [congruence|]. split; [congruence|done].
    + intros [= <- <-]. exists [PostAuthToken (_id c) (_password c)].
      split; [done|]. split; [simpl; lia|]. split.
      { vm_compute. lia. }
      split.
      { vm_compute. lia. }
      split; [rewrite Forall_cons, Forall_nil; split; [by left|done]|].
      split; [done|]. split; [done|]. by intros [data [=]].
Qed.

(** X3. One call of [_request] sends at most four requests: at most two
    logins, with the credentials of the client, and its own request at most
    twice, each time with the same method, URL and body and with a bearer
    token that is not empty.  The credentials are left as they were, and the
    client holds a token that is not empty when the call returns. *)
Theorem request_traffic
    (server : list http_request → http_request → response)
    (method path : string) (json_data : option payload) (c c' : client)
    (out : result jobject) :
  _request server method path json_data c = (out, c') →
  ∃ new,
    _session c' = new ++ _session c
    ∧ (length new ≤ 4)%nat
    ∧ (logins new ≤ 2)%nat
    ∧ (length (filter (λ r, is_login r = false) new) ≤ 2)%nat
    ∧ Forall (λ r, r = PostAuthToken (_id c) (_password c)
                   ∨ ∃ t, t ≠ ""
                          ∧ r = Request method (BASE_URL +:+ path)
                                  ("Bearer " +:+ t) json_data) new
    ∧ _id c' = _id c ∧ _password c' = _password c
    ∧ ((∃ data, out = Ok data) → truthy (_token c') = true).
Proof.
  intros Hrun.
  destruct (request_sends server method path json_data c c' out Hrun)
    as (new & Hs & Hlen & Hlog & Hown & Hall & Hi & Hp & Ht).
  exists new. split_and!; [exact Hs|exact Hlen|exact Hlog|exact Hown|
                           exact Hall|exact Hi|exact Hp|exact Ht].
Qed.

(** A run of X3: an expired token costs a login and a second attempt. *)
Lemma request_traffic_witness :
  ∃ new,
    _session (_request (Sample.server_refresh (Sample.reject 403 "no")) "GET"
                "/x" None Sample.logged_in).2
    = new ++ [] ∧ (length new ≤ 4)%nat.
Proof.
  destruct (_request (Sample.server_refresh (Sample.reject 403 "no")) "GET"
              "/x" None Sample.logged_in) as [out c'] eqn:E.
  destruct (request_traffic _ _ _ _ _ _ _ E) as (new & Hs & Hl & _).
  by exists new.
Defined.

(** ** Reservations and deletions *)

Lemma str_inj (a b : Z) : str a = str b → a = b.
Proof.
  unfold str. intros H.
  assert (Hnn : ∀ z, Z.to_int z ≠ Decimal.Pos Decimal.Nil
                     ∧ Z.to_int z ≠ Decimal.Neg Decimal.Nil).
  { intros [|p|p]; simpl; split; try done; intros [= Hp];
      by apply DecimalPos.Unsigned.to_uint_nonnil in Hp. }
  assert (Some (Z.to_int a) = Some (Z.to_int b)) as [= Hab].
  { rewrite <- (NilZero.isi (Z.to_int a)) by apply Hnn.
    rewrite <- (NilZero.isi (Z.to_int b)) by apply Hnn.
    by rewrite H. }
  by rewrite <- (DecimalZ.of_to a), <- (DecimalZ.of_to b), Hab.
Qed.

Lemma string_app_inv (p a b : string) : p +:+ a = p +:+ b → a = b.
Proof.
  induction p as [|x p IH]; [done|].
  change (String x p +:+ ?s) with (String x (p +:+ s)).
  intros [= H]. by apply IH.
Qed.

(** X4. Every request that [reserve_car] sends is a POST to the reservation
    path, with the plate, the phone, the purpose and the formatted day it was
    given, and with a day-span between 1 and 30: the one it was given when
    that lies in the range, 1 when it is smaller and 30 when it is
    greater. *)
Theorem reserve_car_payload
    (server : list http_request → http_request → response)
    (strftime : date → string) (car_no : string) (visit_date : date)
    (phone purpose : string) (days : Z) (c c' : client)
    (out : result jobject) :
  reserve_car server strftime car_no visit_date phone purpose days c
  = (out, c') →
  ∃ new span,
    _session c' = new ++ _session c
    ∧ 1 ≤ span ≤ 30
    ∧ (1 ≤ days ≤ 30 → span = days)
    ∧ (days < 1 → span = 1) ∧ (30 < days → span = 30)
    ∧ Forall (λ r, is_login r = true
                   ∨ ∃ authorization,
                       r = Request "POST" (BASE_URL +:+ "/pc/reserve/")
                             authorization
                             (Some {| p_visitDate := strftime visit_date;
                                      p_purpose := purpose;
                                      p_carNo := car_no;
                                      p_days := span;
                                      p_phone := phone |})) new.
Proof.
  unfold reserve_car, MAX_DAYS_PER_RESERVATION. intros Hrun.
  destruct (request_sends _ _ _ _ _ _ _ Hrun)
    as (new & Hs & _ & _ & _ & Hall & _).
  exists new, (if days <? 1 then 1 else if 30 <? days then 30 else days).
  split; [exact Hs|].
  split; [|split; [|split; [|split; [|eapply Forall_impl; [exact Hall|]]]]].
  - destruct (Z.ltb_spec days 1); [lia|].
    destruct (Z.ltb_spec 30 days); lia.
  - intros Hd. destruct (Z.ltb_spec days 1); [lia|].
    destruct (Z.ltb_spec 30 days); [lia|done].
  - intros Hd. by destruct (Z.ltb_spec days 1); [|lia].
  - intros Hd. destruct (Z.ltb_spec days 1); [lia|].
    by destruct (Z.ltb_spec 30 days); [|lia].
  - simpl. intros r [->|(t & _ & ->)]; [by left|right]. by eexists.
Qed.

(** A run of X4: a day-span of 45 is sent as 30. *)
Lemma reserve_car_payload_witness :
  ∃ new,
    _session (reserve_car Sample.server_plain Sample.strftime "12A3456"
                738886 "01012345678" "visit" 45 Sample.logged_in).2
    = new ++ []
    ∧ Forall (λ r, is_login r = true
                   ∨ ∃ authorization,
                       r = Request "POST" (BASE_URL +:+ "/pc/reserve/")
                             authorization
                             (Some {| p_visitDate := Sample.strftime 738886;
                                      p_purpose := "visit";
                                      p_carNo := "12A3456";
                                      p_days := 30;
                                      p_phone := "01012345678" |})) new.
Proof.
  destruct (reserve_car Sample.server_plain Sample.strftime "12A3456" 738886
              "01012345678" "visit" 45 Sample.logged_in) as [out c'] eqn:E.
  destruct (reserve_car_payload _ _ _ _ _ _ _ _ _ _ E)
    as (new & span & Hs & _ & _ & _ & Hspan & Hall).
  rewrite (Hspan ltac:(lia)) in Hall. by exists new.
Defined.

(** X5. Every request that [delete_reservation] sends is a DELETE without a
    body, to the path that ends in the decimal form of the identifier; the
    paths of two identifiers are the same only when the identifiers are, so
    that a deletion never addresses another reservation. *)
Theorem delete_reservation_target
    (server : list http_request → http_request → response)
    (idx : Z) (c c' : client) (out : result jobject) :
  delete_reservation server idx c = (out, c') →
  (∃ new,
     _session c' = new ++ _session c
     ∧ Forall (λ r, is_login r = true
                    ∨ ∃ authorization,
                        r = Request "DELETE"
                              (BASE_URL +:+ "/pc/reserve/" +:+ str idx)
                              authorization None) new)
  ∧ ∀ idx', BASE_URL +:+ "/pc/reserve/" +:+ str idx
            = BASE_URL +:+ "/pc/reserve/" +:+ str idx' → idx = idx'.
Proof.
  unfold delete_reservation. intros Hrun. split.
  - destruct (request_sends _ _ _ _ _ _ _ Hrun)
      as (new & Hs & _ & _ & _ & Hall & _).
    exists new. split; [exact Hs|].
    eapply Forall_impl; [exact Hall|].
    simpl. intros r [->|(t & _ & ->)]; [by left|right]. by eexists.
  - intros idx' H. by apply string_app_inv, string_app_inv, str_inj in H.
Qed.

(** A run of X5: the deletion of reservation 7. *)
Lemma delete_reservation_target_witness :
  ∃ new,
    _session (delete_reservation Sample.server_plain 7 Sample.logged_in).2
    = new ++ []
    ∧ Forall (λ r, is_login r = true
                   ∨ ∃ authorization,
                       r = Request "DELETE"
                             (BASE_URL +:+ "/pc/reserve/" +:+ str 7)
                             authorization None) new.
Proof.
  destruct (delete_reservation Sample.server_plain 7 Sample.logged_in)
    as [out c'] eqn:E.
  exact (proj1 (delete_reservation_target _ _ _ _ _ E)).
Defined.

(** X6. [create_client_from_env] raises [AptnerError] when the identifier or
    the password is missing or empty.  Otherwise it returns a client with
    these credentials and no token, and the first thing such a client sends,
    whatever authorized request is made, is the login with exactly these
    credentials. *)
Theorem create_client_from_env_login
    (getenv : string → option string)
    (server : list http_request → http_request → response)
    (method path : string) (json_data : option payload) :
  match create_client_from_env getenv with
  | Raise e =>
      e = AptnerError "APTNER_ID and APTNER_PW must be set in .env"
      ∧ (truthy (getenv "APTNER_ID") = false
         ∨ truthy (getenv "APTNER_PW") = false)
  | Ok c =>
      getenv "APTNER_ID" = Some (_id c) ∧ _id c ≠ ""
      ∧ getenv "APTNER_PW" = Some (_password c) ∧ _password c ≠ ""
      ∧ _token c = None ∧ _session c = []
      ∧ last (_session (_request server method path json_data c).2)
        = Some (PostAuthToken (_id c) (_password c))
  end.
Proof.
  unfold create_client_from_env.
  destruct (getenv "APTNER_ID") as [id|] eqn:Hid; [|by split; [|left]].
  destruct (getenv "APTNER_PW") as [pw|] eqn:Hpw; [|by split; [|right]].
  destruct (truthy (Some id)) eqn:Ti; [|by split; [|left]].
  destruct (truthy (Some pw)) eqn:Tp; [|by split; [|right]].
  simpl negb. simpl orb. cbv iota.
  apply truthy_Some in Ti as (? & [= <-] & Hi).
  apply truthy_Some in Tp as (? & [= <-] & Hp).
  split_and!; try done. simpl.
  set (c := {| _id := id; _password := pw; _token := None; _session := [] |}).
  destruct (_request server method path json_data c) as [out c'] eqn:Hrun.
  destruct (request_sends _ _ _ _ _ _ _ Hrun) as (new & Hs & _).
  rewrite request_login_first in Hrun by done.
  destruct (authenticate server c) as [r c0] eqn:Ha.
  pose proof (authenticate_sends _ _ _ _ Ha) as (Hs0 & _).
  destruct r as [b|e].
  - destruct (request_sends _ _ _ _ _ _ _ Hrun) as (new0 & Hs1 & _).
    simpl. rewrite Hs1, Hs0. simpl. by rewrite last_snoc.
  - injection Hrun as _ <-. simpl. by rewrite Hs0.
Qed.

(** ** What the fetch returns *)

Lemma keep_Some (strptime : string → option date) (today : date)
    (item : Raw.item) (r : reservation) :
  keep strptime today item = Some r →
  today ≤ visitDate r
  ∧ Raw.visitDate item = Some (visitDateStr r)
  ∧ strptime (visitDateStr r) = Some (visitDate r)
  ∧ carNo r = Raw.carNo item ∧ idx r = Raw.visitReserveIdx item.
Proof.
  unfold keep, process_item.
  destruct (Raw.visitDate item) as [s|]; [|done].
  destruct (strptime s) as [d|] eqn:Hd; [|done].
  destruct (Z.leb_spec today d); [|done].
  by intros [= <-].
Qed.

Lemma elem_of_kept (strptime : string → option date) (today : date)
    (ds : list jobject) (r : reservation) :
  r ∈ kept strptime today ds
  ↔ ∃ data item,
      data ∈ ds ∧ item ∈ entries data
      ∧ keep strptime today item = Some r.
Proof.
  unfold kept. rewrite list_elem_of_bind. split.
  - intros (data & Hr & Hdata). apply list_elem_of_omap in Hr as (item & ? & ?).
    by exists data, item.
  - intros (data & item & Hdata & Hitem & Hk). exists data. split; [|done].
    apply list_elem_of_omap. by exists item.
Qed.

(** X7. Every reservation that [get_reservations] returns is of today or
    later, carries the text of its day as the server sent it, which parses
    to its day, and comes from an entry of one of the pages read, whose
    plate and identifier it has. *)
Theorem get_reservations_entries
    (server : list http_request → http_request → response)
    (strptime : string → option date) (today : date) (c c' : client)
    (l : list reservation) :
  get_reservations server strptime today c = (Ok l, c') →
  ∃ ds,
    fetched server 0 c ds c'
    ∧ Forall (λ r,
        today ≤ visitDate r
        ∧ strptime (visitDateStr r) = Some (visitDate r)
        ∧ ∃ data item,
            data ∈ ds ∧ item ∈ entries data
            ∧ Raw.visitDate item = Some (visitDateStr r)
            ∧ Raw.carNo item = carNo r
            ∧ Raw.visitReserveIdx item = idx r) l.
Proof.
  intros Hrun.
  destruct (get_reservations_run server strptime today c)
    as (out & c2 & ds & c1 & k & Hrun' & Hds & _ & _ & _ & _ & Hout).
  rewrite Hrun in Hrun'. injection Hrun' as <- <-.
  destruct Hout as (-> & _ & _ & _ & Hs).
  exists ds. split; [done|].
  pose proof (sort_spec (kept strptime today ds)) as H.
  rewrite Hs in H. destruct H as (_ & Hp & _).
  apply Forall_forall. intros r Hr. rewrite Hp in Hr.
  apply elem_of_kept in Hr as (data & item & Hdata & Hitem & Hk).
  apply keep_Some in Hk as (Ht & Hv & Hparse & Hcar & Hidx).
  split_and!; [done|done|]. by exists data, item.
Qed.

(** A run of X7 on the two sample pages. *)
Lemma get_reservations_entries_witness :
  Forall (λ r, Sample.today ≤ visitDate r
               ∧ Sample.strptime (visitDateStr r) = Some (visitDate r))
    (match (get_reservations Sample.server_two_pages Sample.strptime
              Sample.today Sample.fresh).1 with
     | Ok l => l
     | Raise _ => []
     end).
Proof.
  destruct (get_reservations Sample.server_two_pages Sample.strptime
              Sample.today Sample.fresh) as [[l|e] c'] eqn:E; [|constructor].
  destruct (get_reservations_entries _ _ _ _ _ _ E) as (ds & _ & Hall).
  eapply Forall_impl; [exact Hall|]. simpl. tauto.
Defined.

(** X8. When [get_reservations] raises, one of three things has happened.
    Some pages were read and the request for the next one raised: the
    exception is that of the request, and the client is as the request left
    it.  Or the list of the last page read is [null], and the loop over it
    raised [TypeError].  Or the pages were all read and the final sort raised
    [TypeError]. *)
Theorem get_reservations_raises
    (server : list http_request → http_request → response)
    (strptime : string → option date) (today : date) (c c' : client)
    (e : exn) :
  get_reservations server strptime today c = (Raise e, c') →
  ∃ ds c1,
    fetched server 0 c ds c1
    ∧ ((Forall iterable ds
        ∧ (∀ data, head ds = Some data →
             Z.of_nat (length ds) + 1
             ≤ 1 `max` (or_1 (totalPages data) `min` 50))
        ∧ _request server "GET" (page_path (Z.of_nat (length ds) + 1)) None c1
          = (Raise e, c'))
       ∨ (c' = c1 ∧ e = TypeError
          ∧ ∃ ds0 data, ds = ds0 ++ [data] ∧ Forall iterable ds0
                        ∧ reserveList data = Some None)
       ∨ (c' = c1 ∧ e = TypeError ∧ Forall iterable ds
          ∧ (∃ data, head ds = Some data
                     ∧ Z.of_nat (length ds)
                       = 1 `max` (or_1 (totalPages data) `min` 50))
          ∧ sort (kept strptime today ds) = Raise TypeError)).
Proof.
  intros Hrun.
  destruct (get_reservations_run server strptime today c)
    as (out & c2 & ds & c1 & k & Hrun' & Hds & _ & _ & _ & _ & Hout).
  rewrite Hrun in Hrun'. injection Hrun' as <- <-.
  exists ds, c1. split; [exact Hds|].
  destruct Hout as [Hreq|(-> & -> & -> & [Hnull|(Hit & Hfull & Hsort)])].
  - by left.
  - right; left. by split; [|split].
  - right; right. by split; [|split; [|split; [|split]]].
Qed.

(** A run of X8: the list of the first page is [null]. *)
Lemma get_reservations_raises_witness :
  ∃ ds c1,
    fetched Sample.server_null_list 0 Sample.logged_in ds c1
    ∧ (∃ ds0 data, ds = ds0 ++ [data] ∧ reserveList data = Some None).
Proof.
  destruct (get_reservations Sample.server_null_list Sample.strptime
              Sample.today Sample.logged_in) as [out c'] eqn:E.
  assert (out = Raise TypeError) as ->.
  { vm_compute in E. by injection E as <- _. }
  destruct (get_reservations_raises _ _ _ _ _ _ E)
    as (ds & c1 & Hds & [(Hit & _ & Hreq)
                        |[(_ & _ & ds0 & data & -> & _ & Hn)
                         |(_ & _ & Hit & _ & Hsort)]]).
  - exfalso. inversion Hds as [|? ? d0 c2 ds' ? Hr Hrest]; subst.
    + vm_compute in Hreq. discriminate.
    + apply Forall_cons in Hit as [Hd0 _].
      vm_compute in Hr. injection Hr as <- _. by apply Hd0.
  - exists (ds0 ++ [data]), c1. split; [done|]. by exists ds0, data.
  - exfalso. inversion Hds as [|? ? d0 c2 ds' ? Hr Hrest]; subst.
    + vm_compute in Hsort. discriminate.
    + apply Forall_cons in Hit as [Hd0 _].
      vm_compute in Hr. injection Hr as <- _. by apply Hd0.
Defined.

(** ** The index and the plan *)

Lemma elem_of_index_of (car_no : option string)
    (reservations : list reservation)
    (reserved : gset (option string * date)) (v : option string) (d : date) :
  index_of car_no reservations = Ok reserved →
  (v, d) ∈ reserved
  ↔ ∃ r, r ∈ reservations
         ∧ (truthy car_no = false ∨ carNo r = car_no)
         ∧ carNo r = v ∧ covers r d.
Proof.
  intros Hidx. unfold covers.
  rewrite (elem_of_reserved_dates _ _ _ _ Hidx). split.
  - intros (r & Hr & Hf & i & Hi & [= -> ->]). exists r.
    split_and!; try done; lia.
  - intros (r & Hr & Hf & <- & Hd). exists r. split; [done|]. split; [done|].
    exists (d - visitDate r). split; [lia|]. f_equal. lia.
Qed.

(** The index depends only on the reservations that pass the filter. *)
Lemma index_of_ext (car_no1 car_no2 : option string)
    (l1 l2 : list reservation) :
  (∀ r, r ∈ l1 ∧ (truthy car_no1 = false ∨ carNo r = car_no1)
        ↔ r ∈ l2 ∧ (truthy car_no2 = false ∨ carNo r = car_no2)) →
  index_of car_no1 l1 = index_of car_no2 l2.
Proof.
  intros Hsame.
  pose proof (index_of_spec car_no1 l1) as H1.
  pose proof (index_of_spec car_no2 l2) as H2.
  destruct (index_of car_no1 l1) as [s1|e1], (index_of car_no2 l2) as [s2|e2].
  - f_equal. apply set_eq. intros p.
    rewrite (proj1 H1 p), (proj1 H2 p).
    split; intros (r & Hr & Hp & Hi); exists r;
      (assert (Hrp := conj Hr Hp)); apply Hsame in Hrp as [? ?]; done.
  - destruct H2 as (_ & r & i & Hr & Hp & Hi & Hd).
    destruct (proj2 (Hsame r) (conj Hr Hp)) as [Hr1 Hp1].
    rewrite (proj2 H1 r Hr1 Hp1 i Hi) in Hd. done.
  - destruct H1 as (_ & r & i & Hr & Hp & Hi & Hd).
    destruct (proj1 (Hsame r) (conj Hr Hp)) as [Hr2 Hp2].
    rewrite (proj2 H2 r Hr2 Hp2 i Hi) in Hd. done.
  - destruct H1 as [-> _], H2 as [-> _]. done.
Qed.

(** X9. What [get_reserved_dates] returns.  It fetches the reservations as
    [get_reservations] does and raises what that raises.  Otherwise look at
    the reservations fetched that pass the filter (all of them, when no plate
    or an empty one is asked for) and at the [days or 1] days from the first
    day of each.  When these days are all in the range of [date], a set is
    returned, which holds a plate with a day exactly when one of these
    reservations has the plate and the day is one of its days.  When one of
    them is out of range, [OverflowError] is raised. *)
Theorem get_reserved_dates_spec
    (server : list http_request → http_request → response)
    (strptime : string → option date) (today : date)
    (car_no : option string) (c : client) :
  match get_reservations server strptime today c with
  | (Raise e, c') =>
      get_reserved_dates server strptime today car_no c = (Raise e, c')
  | (Ok reservations, c') =>
      (∃ reserved,
         get_reserved_dates server strptime today car_no c = (Ok reserved, c')
         ∧ (∀ r i, r ∈ reservations →
                   truthy car_no = false ∨ carNo r = car_no →
                   0 ≤ i < or_1 (days r) →
                   date_add (visitDate r) i = Ok (visitDate r + i))
         ∧ ∀ v d,
             (v, d) ∈ reserved
             ↔ ∃ r, r ∈ reservations
                    ∧ (truthy car_no = false ∨ carNo r = car_no)
                    ∧ carNo r = v
                    ∧ visitDate r ≤ d < visitDate r + or_1 (days r))
      ∨ (get_reserved_dates server strptime today car_no c
         = (Raise OverflowError, c')
         ∧ ∃ r i, r ∈ reservations
                  ∧ (truthy car_no = false ∨ carNo r = car_no)
                  ∧ 0 ≤ i < or_1 (days r)
                  ∧ date_add (visitDate r) i = Raise OverflowError)
  end.
Proof.
  unfold get_reserved_dates, mbind, M_bind, lift.
  destruct (get_reservations server strptime today c) as [[rs|e] c'];
    [|done].
  pose proof (index_of_spec car_no rs) as Hspec.
  destruct (index_of car_no rs) as [reserved|e] eqn:Hidx.
  - left. exists reserved. split; [done|]. destruct Hspec as [_ Hfit].
    split; [intros r i Hr Hp Hi; by apply Hfit|].
    intros v d. by apply elem_of_index_of.
  - right. destruct Hspec as [-> Hbad]. by split.
Qed.

(** A run of X9: a reservation of two days from the last day of the year
    9999 is fetched, and the index raises. *)
Lemma get_reserved_dates_spec_witness :
  (get_reserved_dates
     (Sample.server_one_page
        (Sample.page (Some 1)
           [Sample.entry (Some "12A3456") "9999.12.31" (Some (Some 2))]))
     Sample.strptime Sample.today None Sample.logged_in).1
  = Raise OverflowError.
Proof.
  pose proof (get_reserved_dates_spec
                (Sample.server_one_page
                   (Sample.page (Some 1)
                      [Sample.entry (Some "12A3456") "9999.12.31"
                         (Some (Some 2))]))
                Sample.strptime Sample.today None Sample.logged_in) as H.
  destruct (get_reservations _ Sample.strptime Sample.today Sample.logged_in)
    as [[l|e] c'] eqn:E; [|vm_compute in E; discriminate].
  destruct H as [(reserved & _ & Hfit & _)|[-> _]]; [|done].
  exfalso. vm_compute in E. injection E as <- _.
  specialize (Hfit _ 1 ltac:(left) ltac:(by left) ltac:(done)).
  vm_compute in Hfit. discriminate.
Defined.

(** X10. Asking for a plate restricts the index to that plate: whenever the
    unfiltered index is built, so is the index for a plate that is not
    empty, and it holds the pairs of the unfiltered index that have this
    plate.  An empty plate is no filter at all. *)
Theorem index_of_filter (car_no : string) (reservations : list reservation) :
  (car_no ≠ "" →
   ∀ unfiltered, index_of None reservations = Ok unfiltered →
     ∃ reserved,
       index_of (Some car_no) reservations = Ok reserved
       ∧ ∀ v d, (v, d) ∈ reserved
                ↔ v = Some car_no ∧ (v, d) ∈ unfiltered)
  ∧ index_of (Some "") reservations = index_of None reservations.
Proof.
  split.
  - intros Hne unfiltered Hall.
    assert (truthy (Some car_no) = true) as Ht
      by (apply truthy_Some; by exists car_no).
    pose proof (index_of_spec None reservations) as Hu. rewrite Hall in Hu.
    pose proof (index_of_spec (Some car_no) reservations) as Hf.
    destruct (index_of (Some car_no) reservations) as [reserved|e] eqn:Hidx.
    + exists reserved. split; [done|]. intros v d.
      rewrite (elem_of_index_of _ _ _ _ _ Hidx),
        (elem_of_index_of _ _ _ _ _ Hall).
      split.
      * intros (r & Hr & [Hp|Hp] & Hv & Hd); [congruence|].
        split; [congruence|]. exists r.
        split; [done|]. split; [by left|]. by split.
      * intros (-> & r & Hr & _ & Hv & Hd). exists r.
        split; [done|]. split; [by right|]. by split.
    + destruct Hf as (_ & r & i & Hr & _ & Hi & Hd).
      rewrite (proj2 Hu r Hr ltac:(by left) i Hi) in Hd. done.
  - apply index_of_ext. intros r. split; intros [Hr _]; (split; [done|by left]).
Qed.

(** A run of X10: among two reservations, the index for one plate. *)
Lemma index_of_filter_witness :
  let r1 := {| idx := None; carNo := Some "12A3456"; visitDate := 100;
               visitDateStr := ""; purpose := None; phone := None;
               days := Some 2 |} in
  let r2 := {| idx := None; carNo := Some "34B5678"; visitDate := 100;
               visitDateStr := ""; purpose := None; phone := None;
               days := None |} in
  ∃ reserved,
    index_of (Some "12A3456") [r1; r2] = Ok reserved
    ∧ (Some "12A3456", 101) ∈ reserved
    ∧ (Some "34B5678", 100) ∉ reserved.
Proof.
  intros r1 r2.
  destruct (index_of None [r1; r2]) as [unfiltered|e] eqn:Hu;
    [|vm_compute in Hu; discriminate].
  destruct (proj1 (index_of_filter "12A3456" [r1; r2]) ltac:(done)
              unfiltered Hu) as (reserved & Hidx & H).
  exists reserved. split; [done|]. split.
  - apply H. split; [done|]. apply (elem_of_index_of _ _ _ _ _ Hu).
    exists r1. split; [left|]. split; [by left|]. split; [done|].
    unfold covers. simpl. lia.
  - intros Hin. apply H in Hin as [[=] _].
Defined.

(** X11. The index of a list of reservations is the union of the indexes of
    its parts, built when both are, and does not depend on the order of the
    reservations: the final sort of the fetch does not change it. *)
Theorem index_of_app_perm (car_no : option string)
    (l1 l2 : list reservation) :
  index_of car_no (l1 ++ l2)
  = (s1 ← index_of car_no l1; s2 ← index_of car_no l2; Ok (s1 ∪ s2))
  ∧ (l1 ≡ₚ l2 → index_of car_no l1 = index_of car_no l2).
Proof.
  split.
  - pose proof (index_of_spec car_no (l1 ++ l2)) as H.
    pose proof (index_of_spec car_no l1) as H1.
    pose proof (index_of_spec car_no l2) as H2.
    destruct (index_of car_no l1) as [s1|e1]; cbn [mbind result_bind].
    + destruct (index_of car_no l2) as [s2|e2]; cbn [mbind result_bind].
      * destruct (index_of car_no (l1 ++ l2)) as [s|e].
        -- f_equal. apply set_eq. intros p.
           rewrite elem_of_union, (proj1 H p), (proj1 H1 p), (proj1 H2 p).
           split.
           ++ intros (r & Hr & Hp). apply elem_of_app in Hr as [Hr|Hr];
                [left|right]; by exists r.
           ++ intros [(r & Hr & Hp)|(r & Hr & Hp)]; exists r;
                (split; [apply elem_of_app; auto|done]).
        -- destruct H as (_ & r & i & Hr & Hp & Hi & Hd).
           apply elem_of_app in Hr as [Hr|Hr].
           ++ rewrite (proj2 H1 r Hr Hp i Hi) in Hd. done.
           ++ rewrite (proj2 H2 r Hr Hp i Hi) in Hd. done.
      * destruct H2 as (-> & r & i & Hr & Hp & Hi & Hd).
        destruct (index_of car_no (l1 ++ l2)) as [s|e];
          [|by destruct H as [-> _]].
        rewrite (proj2 H r ltac:(apply elem_of_app; by right) Hp i Hi) in Hd.
        done.
    + destruct H1 as (-> & r & i & Hr & Hp & Hi & Hd).
      destruct (index_of car_no (l1 ++ l2)) as [s|e];
        [|by destruct H as [-> _]].
      rewrite (proj2 H r ltac:(apply elem_of_app; by left) Hp i Hi) in Hd.
      done.
  - intros Hp. apply index_of_ext. intros r. by rewrite Hp.
Qed.

(** A run of X11: two reservations in either order. *)
Lemma index_of_app_perm_witness :
  let r1 := {| idx := None; carNo := Some "12A3456"; visitDate := 100;
               visitDateStr := ""; purpose := None; phone := None;
               days := Some 2 |} in
  let r2 := {| idx := None; carNo := Some "34B5678"; visitDate := 100;
               visitDateStr := ""; purpose := None; phone := None;
               days := None |} in
  index_of None [r1; r2] = index_of None [r2; r1].
Proof.
  intros r1 r2.
  apply (proj2 (index_of_app_perm None [r1; r2] [r2; r1])).
  apply Permutation_swap.
Defined.

(** X12. Planning against the index of the reservations fetched, when it
    is built: a candidate day is kept for submission exactly when no
    reservation of the same plate occupies it.  Reservations with a negative
    day-span occupy no day: when every reservation of the plate has one, all
    the candidate days are kept. *)
Theorem new_dates_index_of (dates : list date) (car_no : string)
    (reservations : list reservation)
    (reserved : gset (option string * date)) :
  index_of None reservations = Ok reserved →
  (∀ d, d ∈ new_dates dates car_no reserved
        ↔ d ∈ dates
          ∧ ¬ ∃ r, r ∈ reservations ∧ carNo r = Some car_no
                   ∧ visitDate r ≤ d < visitDate r + or_1 (days r))
  ∧ ((∀ r, r ∈ reservations → carNo r = Some car_no →
           ∃ n, days r = Some n ∧ n < 0) →
     new_dates dates car_no reserved = dates).
Proof.
  intros Hidx. split.
  - intros d. unfold new_dates.
    rewrite list_elem_of_filter, (elem_of_index_of _ _ _ _ _ Hidx).
    unfold covers. split.
    + intros [Hn Hd]. split; [done|]. intros (r & Hr & Hc & Hcov).
      apply Hn. exists r. split; [done|]. split; [by left|]. by split.
    + intros [Hd Hn]. split; [|done]. intros (r & Hr & _ & Hc & Hcov).
      apply Hn. by exists r.
  - intros Hneg. unfold new_dates.
    induction dates as [|d dates IH]; [done|].
    rewrite filter_cons. destruct (decide _) as [_|Hin]; [by rewrite IH|].
    exfalso. apply Hin. intros Hd.
    apply (elem_of_index_of _ _ _ _ _ Hidx) in Hd
      as (r & Hr & _ & Hc & Hcov).
    destruct (Hneg r Hr Hc) as (n & Hn & Hlt).
    unfold covers in Hcov. rewrite Hn in Hcov. simpl in Hcov.
    destruct (Z.eqb_spec n 0); lia.
Qed.

(** A run of X12: a reservation of three days backwards removes no day. *)
Lemma new_dates_index_of_witness :
  let r1 := {| idx := None; carNo := Some "12A3456"; visitDate := 100;
               visitDateStr := ""; purpose := None; phone := None;
               days := Some (-3) |} in
  ∃ reserved,
    index_of None [r1] = Ok reserved
    ∧ new_dates [99; 100; 101] "12A3456" reserved = [99; 100; 101].
Proof.
  intros r1. exists ∅. split; [reflexivity|].
  apply (proj2 (new_dates_index_of [99; 100; 101] "12A3456" [r1] ∅
                  eq_refl)).
  intros r ->%list_elem_of_singleton _. exists (-3). split; [done|lia].
Defined.

(** * Further properties of the window *)

(** ** The size of a schedule *)

Lemma weekday_bounds (d : date) : 0 ≤ weekday d < 7.
Proof. unfold weekday. apply Z.mod_pos_bound. lia. Qed.

Lemma week_has_weekday (a w : Z) :
  0 ≤ w < 7 → ∃ d, a ≤ d < a + 7 ∧ weekday d = w.
Proof.
  intros Hw. exists (a + (w - weekday a) `mod` 7).
  pose proof (Z.mod_pos_bound (w - weekday a) 7 ltac:(lia)) as Hb.
  split; [lia|]. unfold weekday in *.
  replace (a + (w - (a + 6) `mod` 7) `mod` 7 + 6)
    with ((a + 6) + (w - (a + 6) `mod` 7) `mod` 7) by lia.
  rewrite Z.add_mod_idemp_r by lia.
  replace (a + 6 + (w - (a + 6) `mod` 7))
    with (w + ((a + 6) - (a + 6) `mod` 7)) by lia.
  rewrite (Z.div_mod (a + 6) 7) at 1 by lia.
  replace (w + (7 * ((a + 6) `div` 7) + (a + 6) `mod` 7 - (a + 6) `mod` 7))
    with (w + (a + 6) `div` 7 * 7) by lia.
  rewrite Z.mod_add by lia. apply Z.mod_small. lia.
Qed.

Lemma weekday_inj_week (a d1 d2 : Z) :
  a ≤ d1 < a + 7 → a ≤ d2 < a + 7 → weekday d1 = weekday d2 → d1 = d2.
Proof.
  unfold weekday. intros H1 H2 Hw.
  pose proof (Z.div_mod (d1 + 6) 7 ltac:(lia)) as E1.
  pose proof (Z.div_mod (d2 + 6) 7 ltac:(lia)) as E2.
  rewrite Hw in E1.
  assert ((d1 + 6) `div` 7 = (d2 + 6) `div` 7) as Hq; [|lia].
  pose proof (Z.mod_pos_bound (d2 + 6) 7 ltac:(lia)). lia.
Qed.

(** Seven days in a row hold every weekday of a selection once. *)
Lemma week_count (selected : list Z) (a : Z) :
  NoDup selected → Forall (λ i, 0 ≤ i < 7) selected →
  length (filter (λ d, weekday d ∈ selected) (seqZ a 7)) = length selected.
Proof.
  intros Hnd Hr.
  rewrite <- (length_fmap weekday). apply Permutation_length.
  apply NoDup_Permutation; [|done|].
  - apply NoDup_fmap_2_strong; [|apply NoDup_filter, NoDup_seqZ].
    intros d1 d2 [_ H1%elem_of_seqZ]%list_elem_of_filter
      [_ H2%elem_of_seqZ]%list_elem_of_filter.
    by apply (weekday_inj_week a).
  - intros w. rewrite list_elem_of_fmap. split.
    + by intros (d & -> & [Hd _]%list_elem_of_filter).
    + intros Hw. rewrite Forall_forall in Hr.
      destruct (week_has_weekday a w (Hr w Hw)) as (d & Hd & <-).
      exists d. split; [done|]. apply list_elem_of_filter.
      split; [done|]. apply elem_of_seqZ. lia.
Qed.

Lemma weeks_count (selected : list Z) (n : nat) (a : Z) :
  NoDup selected → Forall (λ i, 0 ≤ i < 7) selected →
  length (filter (λ d, weekday d ∈ selected) (seqZ a (7 * Z.of_nat n)))
  = (n * length selected)%nat.
Proof.
  intros Hnd Hr. revert a. induction n as [|n IH]; intros a; [done|].
  replace (7 * Z.of_nat (S n)) with (7 + 7 * Z.of_nat n) by lia.
  rewrite seqZ_app by lia.
  rewrite filter_app, length_app, week_count, IH by done. lia.
Qed.

Lemma selected_from_sublist (k : Z) (day_checks : list bool) :
  (filter (λ p, p.2 = true)
     (zip (seqZ k (Z.of_nat (length day_checks))) day_checks)).*1
  `sublist_of` seqZ k (Z.of_nat (length day_checks))
  ∧ length ((filter (λ p, p.2 = true)
               (zip (seqZ k (Z.of_nat (length day_checks))) day_checks)).*1)
    = length (filter (λ b, b = true) day_checks).
Proof.
  revert k. induction day_checks as [|b cs IH]; intros k.
  - split; [constructor|done].
  - rewrite seqZ_cons by (simpl; lia).
    replace (Z.pred (Z.of_nat (length (b :: cs)))) with (Z.of_nat (length cs))
      by (simpl; lia).
    change (zip (k :: ?l) (b :: cs)) with ((k, b) :: zip l cs).
    rewrite !filter_cons. destruct (IH (Z.succ k)) as [Hsub Hlen].
    destruct b.
    + destruct (decide ((k, true).2 = true)) as [_|]; [|done].
      destruct (decide (true = true)) as [_|]; [|done].
      rewrite fmap_cons. split; [by constructor|]. simpl. by rewrite Hlen.
    + destruct (decide ((k, false).2 = true)) as [|_]; [done|].
      destruct (decide (false = true)) as [|_]; [done|].
      split; [by constructor|done].
Qed.

(** X13. With the seven boxes of the window and [weeks] not negative, the
    schedule holds [weeks] days for every ticked weekday and one more when
    the weekday of today is ticked.  So with at least one week it is empty
    only when no box is ticked. *)
Theorem get_schedule_dates_count (day_checks : list bool) (weeks : Z)
    (today : date) :
  length day_checks = 7%nat → 0 ≤ weeks →
  let ticked := length (filter (λ b, b = true) day_checks) in
  Z.of_nat (length (_get_schedule_dates day_checks weeks today))
  = weeks * Z.of_nat ticked
    + (if bool_decide (day_checks !! Z.to_nat (weekday today) = Some true)
       then 1 else 0)
  ∧ (1 ≤ weeks →
     (_get_schedule_dates day_checks weeks today = [] ↔ ticked = 0%nat)).
Proof.
  intros H7 Hw ticked.
  destruct (selected_from_sublist 0 day_checks) as [Hsub Hlen].
  fold (selected_days day_checks) in Hsub, Hlen. fold ticked in Hlen.
  assert (Hnd : NoDup (selected_days day_checks))
    by (eapply sublist_NoDup; [apply NoDup_seqZ|exact Hsub]).
  assert (Hr : Forall (λ i, 0 ≤ i < 7) (selected_days day_checks)).
  { apply Forall_forall. intros i [Hi Hl]%elem_of_selected_days.
    apply lookup_lt_Some in Hl. lia. }
  assert (Hcount :
    Z.of_nat (length (_get_schedule_dates day_checks weeks today))
    = weeks * Z.of_nat ticked
      + (if bool_decide (day_checks !! Z.to_nat (weekday today) = Some true)
         then 1 else 0)).
  { unfold _get_schedule_dates.
    destruct (selected_days day_checks) as [|i sel] eqn:Hsel.
    - simpl in Hlen. rewrite <- Hlen.
      rewrite bool_decide_eq_false_2; [simpl; lia|].
      intros Ht. pose proof (weekday_bounds today).
      assert (weekday today ∈ selected_days day_checks) as Hin
        by (apply elem_of_selected_days; split; [lia|done]).
      rewrite Hsel in Hin. by apply elem_of_nil in Hin.
    - rewrite <- Hsel in *. rewrite schedule_loop_filter. simpl app.
      replace (today + 7 * weeks - today + 1) with (Z.succ (7 * weeks)) by lia.
      rewrite seqZ_cons by lia.
      replace (Z.pred (Z.succ (7 * weeks))) with (7 * Z.of_nat (Z.to_nat weeks))
        by lia.
      rewrite filter_cons.
      pose proof (weeks_count (selected_days day_checks) (Z.to_nat weeks)
                    (Z.succ today) Hnd Hr) as Hc.
      pose proof (weekday_bounds today) as Hb.
      assert (weekday today ∈ selected_days day_checks
              ↔ day_checks !! Z.to_nat (weekday today) = Some true) as Hiff.
      { rewrite elem_of_selected_days. intuition lia. }
      destruct (decide (weekday today ∈ selected_days day_checks)) as [Hin|Hin].
      + rewrite bool_decide_eq_true_2 by (by apply Hiff).
        simpl length. unfold date in *. rewrite Hc, Hlen. lia.
      + rewrite bool_decide_eq_false_2 by (by rewrite <- Hiff).
        unfold date in *. rewrite Hc, Hlen. lia. }
  split; [exact Hcount|].
  intros Hw1. split.
  - intros He. rewrite He in Hcount. simpl in Hcount.
    destruct (bool_decide _); nia.
  - intros Ht. rewrite Ht in Hcount.
    assert (bool_decide (day_checks !! Z.to_nat (weekday today) = Some true)
            = false) as Hb.
    { apply bool_decide_eq_false_2. intros Hin.
      assert (true ∈ filter (λ b, b = true) day_checks) as Hf.
      { apply list_elem_of_filter. split; [done|].
        by eapply list_elem_of_lookup_2. }
      fold ticked in Ht. unfold ticked in Ht.
      apply length_zero_iff_nil in Ht. rewrite Ht in Hf.
      by apply elem_of_nil in Hf. }
    rewrite Hb in Hcount.
    destruct (_get_schedule_dates day_checks weeks today); [done|].
    simpl in Hcount. lia.
Qed.

(** A run of X13: Monday and Wednesday over four weeks from a Monday. *)
Lemma get_schedule_dates_count_witness :
  Z.of_nat (length (_get_schedule_dates
                      [true; false; true; false; false; false; false] 4
                      (ymd2ord 2024 1 1))) = 9.
Proof.
  rewrite (proj1 (get_schedule_dates_count
                    [true; false; true; false; false; false; false] 4
                    (ymd2ord 2024 1 1) eq_refl ltac:(lia))).
  reflexivity.
Defined.

(** ** The history of cars *)

Lemma set_phone_None (car_no phone : string) (cars : list car) :
  set_phone car_no phone cars = None
  ↔ Some car_no ∉ h_carNo <$> cars.
Proof.
  induction cars as [|entry rest IH]; simpl.
  - split; [intros _; apply not_elem_of_nil|done].
  - rewrite not_elem_of_cons. case_bool_decide as Hk.
    + split; [done|]. intros [Hne _]. congruence.
    + rewrite fmap_None, IH. split; [|tauto]. intros Hn. split; [congruence|done].
Qed.

(** When some entry has the plate, the list is split at the first such
    entry, which gets the phone. *)
Lemma set_phone_Some (car_no phone : string) (cars cars' : list car) :
  set_phone car_no phone cars = Some cars' →
  ∃ l1 entry l2,
    cars = l1 ++ entry :: l2
    ∧ cars' = l1 ++ {| h_carNo := Some car_no; h_phone := Some phone |} :: l2
    ∧ h_carNo entry = Some car_no
    ∧ Some car_no ∉ h_carNo <$> l1.
Proof.
  revert cars'. induction cars as [|entry rest IH]; intros cars'; simpl; [done|].
  case_bool_decide as Hk.
  - intros [= <-]. exists [], entry, rest. rewrite Hk.
    split_and!; try done. apply not_elem_of_nil.
  - destruct (set_phone car_no phone rest) as [rest'|]; [|done].
    intros [= <-]. destruct (IH rest' eq_refl) as (l1 & e & l2 & -> & -> & He & Hn).
    exists (entry :: l1), e, l2. split_and!; try done.
    rewrite fmap_cons, not_elem_of_cons. split; [congruence|done].
Qed.

Lemma car_data_from (data : gmap (option string) string) (cars : list car)
    (k : option string) (v : string) :
  k ∉ h_carNo <$> cars →
  foldl (λ data entry, <[h_carNo entry := default "" (h_phone entry)]> data)
    (<[k := v]> data) cars
  = <[k := v]>
      (foldl (λ data entry,
                <[h_carNo entry := default "" (h_phone entry)]> data)
         data cars).
Proof.
  revert data. induction cars as [|entry rest IH]; intros data Hk; [done|].
  rewrite fmap_cons, not_elem_of_cons in Hk. destruct Hk as [Hne Hk].
  simpl. rewrite insert_insert_ne by done. by apply IH.
Qed.

Lemma car_data_app (l1 l2 : list car) :
  _car_data (l1 ++ l2)
  = foldl (λ data entry, <[h_carNo entry := default "" (h_phone entry)]> data)
      (_car_data l1) l2.
Proof. unfold _car_data. by rewrite foldl_app. Qed.

(** X14. [add_car_to_history] on the list of the file.  For a file whose
    ["cars"] is [null] it raises [TypeError] and writes nothing.  For any
    other file it writes a list under ["cars"].  When no entry has the plate,
    an entry with the plate and the phone is appended; otherwise the first
    entry of the plate gets the phone and nothing else changes.  Either way
    the entries of other plates stay as they are and in their order, the list
    grows by one entry at most, and a list without repeated plates stays so.
    A file that is missing or cannot be read counts as an empty list, so that
    saving replaces it. *)
Theorem add_car_to_history_entries (car_no phone : string) (file : car_file) :
  match load_car_history file with
  | None =>
      file = Document (Some None)
      ∧ add_car_to_history car_no phone file = Raise TypeError
  | Some cars =>
      ∃ cars',
        add_car_to_history car_no phone file
        = Ok (Document (Some (Some cars')))
        ∧ (Some car_no ∉ h_carNo <$> cars →
           cars'
           = cars ++ [ {| h_carNo := Some car_no; h_phone := Some phone |} ])
        ∧ (Some car_no ∈ h_carNo <$> cars →
           length cars' = length cars
           ∧ ∃ l1 entry l2,
               cars = l1 ++ entry :: l2
               ∧ cars' = l1 ++ {| h_carNo := Some car_no;
                                  h_phone := Some phone |} :: l2
               ∧ h_carNo entry = Some car_no
               ∧ Some car_no ∉ h_carNo <$> l1)
        ∧ filter (λ entry, h_carNo entry ≠ Some car_no) cars'
          = filter (λ entry, h_carNo entry ≠ Some car_no) cars
        ∧ {| h_carNo := Some car_no; h_phone := Some phone |} ∈ cars'
        ∧ (NoDup (h_carNo <$> cars) → NoDup (h_carNo <$> cars'))
  end.
Proof.
  unfold add_car_to_history.
  destruct (load_car_history file) as [cars|] eqn:Hload.
  2:{ split; [|done]. by destruct file as [| |[[l|]|]]. }
  destruct (set_phone car_no phone cars) as [new|] eqn:Hset.
  - exists new. unfold save_car_history.
    destruct (set_phone_Some _ _ _ _ Hset)
      as (l1 & e & l2 & Hc & Hnew & He & Hn).
    assert (Hin : Some car_no ∈ h_carNo <$> cars).
    { rewrite Hc, fmap_app, fmap_cons, He. apply elem_of_app. right. left. }
    split_and!.
    + done.
    + intros Hnot. by destruct Hnot.
    + intros _. split; [by rewrite Hc, Hnew, !length_app|].
      by exists l1, e, l2.
    + rewrite Hc, Hnew, !filter_app, !filter_cons.
      destruct (decide (h_carNo e ≠ Some car_no)); [done|].
      by destruct (decide (_ ≠ Some car_no)).
    + rewrite Hnew. apply elem_of_app. right. left.
    + rewrite Hc, Hnew, !fmap_app, !fmap_cons, He. done.
  - apply set_phone_None in Hset.
    exists (cars ++ [ {| h_carNo := Some car_no; h_phone := Some phone |} ]).
    unfold save_car_history. split_and!.
    + done.
    + done.
    + intros Hin. by destruct Hset.
    + rewrite filter_app, filter_cons.
      destruct (decide (_ ≠ Some car_no)) as [Hne|_]; [by destruct Hne|].
      by rewrite filter_nil, app_nil_r.
    + apply elem_of_app. right. left.
    + intros Hnd. rewrite fmap_app. apply NoDup_app. split; [done|].
      split; [|apply NoDup_singleton].
      intros k Hk [->|[]%elem_of_nil]%elem_of_cons. done.
Qed.

(** A run of X14: the phone of a known car is replaced. *)
Lemma add_car_to_history_entries_witness :
  add_car_to_history "12A3456" "01099998888"
    (Document
       (Some (Some [ {| h_carNo := Some "34B5678"; h_phone := Some "010" |};
                     {| h_carNo := Some "12A3456"; h_phone := None |} ])))
  = Ok (Document
          (Some (Some [ {| h_carNo := Some "34B5678";
                           h_phone := Some "010" |};
                        {| h_carNo := Some "12A3456";
                           h_phone := Some "01099998888" |} ]))).
Proof.
  pose proof (add_car_to_history_entries "12A3456" "01099998888"
    (Document
       (Some (Some [ {| h_carNo := Some "34B5678"; h_phone := Some "010" |};
                     {| h_carNo := Some "12A3456"; h_phone := None |} ]))))
    as (cars' & Hrun & _).
  rewrite Hrun. vm_compute in Hrun. by injection Hrun as <-.
Defined.

Lemma filter_plate_nil (car_no : string) (cars : list car) :
  Some car_no ∉ h_carNo <$> cars →
  filter (λ entry, h_carNo entry = Some car_no) cars = [].
Proof.
  induction cars as [|x l IH]; [done|].
  rewrite fmap_cons, not_elem_of_cons. intros [Hne Hl].
  rewrite filter_cons. destruct (decide (h_carNo x = Some car_no)); [done|].
  by apply IH.
Qed.

Lemma car_data_last (m m' : gmap (option string) string) (cars : list car)
    (k : option string) :
  k ∈ h_carNo <$> cars →
  foldl (λ data entry, <[h_carNo entry := default "" (h_phone entry)]> data)
    m cars !! k
  = foldl (λ data entry, <[h_carNo entry := default "" (h_phone entry)]> data)
      m' cars !! k.
Proof.
  revert m m'. induction cars as [|entry rest IH]; intros m m' Hk.
  - by apply elem_of_nil in Hk.
  - simpl. destruct (decide (k ∈ h_carNo <$> rest)) as [Hin|Hout].
    + by apply IH.
    + rewrite fmap_cons, elem_of_cons in Hk. destruct Hk as [->|Hk]; [|done].
      rewrite !car_data_from by done. by rewrite !lookup_insert_eq.
Qed.

(** X15. What the window shows after [add_car_to_history], for a file
    whose list of cars can be read: the file is written and the window
    builds its dictionary from it.  When no plate is repeated in the file,
    the dictionary of the window maps the plate to the new phone and every
    other plate as before, so that choosing the plate puts the phone, if it
    is not empty, in the phone field.  When the plate is repeated in the
    file, the first of its entries gets the phone but the dictionary follows
    the last one: it shows for the plate what it showed before. *)
Theorem car_data_after_add (car_no phone : string) (file : car_file)
    (cars : list car) :
  load_car_history file = Some cars →
  ∃ file' cars',
    add_car_to_history car_no phone file = Ok file'
    ∧ load_car_history file' = Some cars'
    ∧ _load_car_history file' = Ok (_car_data cars')
    ∧ (NoDup (h_carNo <$> cars) →
       _car_data cars' = <[Some car_no := phone]> (_car_data cars))
    ∧ (NoDup (h_carNo <$> cars) → phone ≠ "" →
       ∀ phone_edit,
         _on_car_changed (_car_data cars') car_no phone_edit = phone)
    ∧ ((2 ≤ length (filter (λ entry, h_carNo entry = Some car_no) cars))%nat →
       _car_data cars' !! Some car_no = _car_data cars !! Some car_no).
Proof.
  intros Hload.
  assert (Hshow : ∀ data,
    data = <[Some car_no := phone]> (_car_data cars) → phone ≠ "" →
    ∀ phone_edit, _on_car_changed data car_no phone_edit = phone).
  { intros data -> Hne phone_edit. unfold _on_car_changed.
    rewrite lookup_insert_eq. simpl.
    by rewrite (proj2 (String.eqb_neq _ _) Hne). }
  cut (∃ cars',
         add_car_to_history car_no phone file = Ok (save_car_history cars')
         ∧ (NoDup (h_carNo <$> cars) →
            _car_data cars' = <[Some car_no := phone]> (_car_data cars))
         ∧ ((2 ≤ length (filter (λ entry, h_carNo entry = Some car_no)
                            cars))%nat →
            _car_data cars' !! Some car_no = _car_data cars !! Some car_no)).
  { intros (cars' & Hrun & H1 & H2).
    exists (save_car_history cars'), cars'.
    split; [done|]. split; [done|]. split; [done|]. split; [done|].
    split; [|done]. intros Hnd. by apply Hshow, H1. }
  clear Hshow. unfold add_car_to_history. rewrite Hload.
  destruct (set_phone car_no phone cars) as [new|] eqn:Hset.
  - exists new. split; [done|].
    destruct (set_phone_Some _ _ _ _ Hset)
      as (l1 & e & l2 & Hc & -> & He & Hn).
    split.
    + rewrite Hc, fmap_app, fmap_cons, He. intros Hnd.
      apply NoDup_app in Hnd as (_ & _ & Hnd).
      apply NoDup_cons in Hnd as [Hl2 _].
      rewrite !car_data_app. simpl. rewrite He.
      rewrite !car_data_from by done. by rewrite insert_insert_eq.
    + rewrite Hc, filter_app, filter_cons, length_app.
      destruct (decide (h_carNo e = Some car_no)) as [_|]; [|done].
      rewrite (filter_plate_nil car_no l1 Hn).
      simpl. intros Hlen.
      assert (Some car_no ∈ h_carNo <$> l2) as Hin.
      { destruct (filter (λ entry, h_carNo entry = Some car_no) l2)
          as [|x l] eqn:Hf; [simpl in Hlen; lia|].
        assert (x ∈ filter (λ entry, h_carNo entry = Some car_no) l2) as Hx
          by (rewrite Hf; left).
        apply list_elem_of_filter in Hx as [Hkey Hx].
        apply list_elem_of_fmap. by exists x. }
      rewrite !car_data_app. simpl. by apply car_data_last.
  - apply set_phone_None in Hset.
    exists (cars ++ [ {| h_carNo := Some car_no; h_phone := Some phone |} ]).
    split; [done|]. split.
    + intros _. rewrite car_data_app. done.
    + intros Hlen.
      rewrite (filter_plate_nil car_no cars Hset) in Hlen.
      simpl in Hlen. lia.
Qed.

(** A run of X15: a plate without phone gets one, and the window shows it. *)
Lemma car_data_after_add_witness :
  ∃ file' cars',
    add_car_to_history "12A3456" "01099998888"
      (Document
         (Some (Some [ {| h_carNo := Some "12A3456"; h_phone := None |} ])))
    = Ok file'
    ∧ load_car_history file' = Some cars'
    ∧ _car_data cars' !! Some "12A3456" = Some "01099998888".
Proof.
  destruct (car_data_after_add "12A3456" "01099998888"
              (Document
                 (Some (Some [ {| h_carNo := Some "12A3456";
                                  h_phone := None |} ])))
              [ {| h_carNo := Some "12A3456"; h_phone := None |} ] eq_refl)
    as (file' & cars' & Hrun & Hload & _ & Hdata & _).
  exists file', cars'. split; [done|]. split; [done|].
  rewrite Hdata by (simpl; apply NoDup_singleton).
  apply lookup_insert_eq.
Defined.

(** ** The preview *)

Lemma count_fold (P : date → Prop) `{!∀ d, Decision (P d)} (k : Z)
    (dates : list date) :
  foldl (λ duplicates d, if bool_decide (P d) then duplicates + 1
                         else duplicates) k dates
  = k + Z.of_nat (length (filter P dates)).
Proof.
  revert k. induction dates as [|d l IH]; intros k; simpl; [lia|].
  rewrite IH, filter_cons.
  case_bool_decide; destruct (decide (P d)); try done; simpl; lia.
Qed.

Lemma length_filter_not (P : date → Prop) `{!∀ d, Decision (P d)}
    (dates : list date) :
  (length (filter P dates) + length (filter (λ d, ¬ P d) dates))%nat
  = length dates.
Proof.
  induction dates as [|d l IH]; [done|].
  rewrite !filter_cons.
  destruct (decide (P d)), (decide (¬ P d)); try done; simpl; lia.
Qed.

Lemma string_app_assoc (a b c : string) : (a +:+ b) +:+ c = a +:+ (b +:+ c).
Proof.
  induction a as [|x a IH]; [done|].
  change (String x ((a +:+ b) +:+ c) = String x (a +:+ (b +:+ c))).
  by rewrite IH.
Qed.

(** X16. The counts of the preview, for a plate that is not empty.  The
    duplicates that it counts are the scheduled days that the index holds
    for the plate, and the number of new days that it shows is the number of
    days that registering would submit.  The preview says that no weekday is
    selected exactly when the schedule is empty. *)
Theorem preview_dates_counts (isoformat : date → string)
    (day_checks : list bool) (weeks : Z) (today : date) (car_no : string)
    (reserved_dates : gset (option string * date)) :
  car_no ≠ "" →
  let dates := _get_schedule_dates day_checks weeks today in
  let duplicates := count_duplicates dates car_no reserved_dates in
  duplicates
  = Z.of_nat (length (filter (λ d, (Some car_no, d) ∈ reserved_dates) dates))
  ∧ Z.of_nat (length dates) - duplicates
    = Z.of_nat (length (new_dates dates car_no reserved_dates))
  ∧ (_preview_dates isoformat day_checks weeks today car_no reserved_dates
     = "선택된 요일이 없습니다" ↔ dates = []).
Proof.
  intros Hne dates duplicates.
  assert (Hdup : duplicates
    = Z.of_nat (length (filter (λ d, (Some car_no, d) ∈ reserved_dates)
                          dates))).
  { unfold duplicates, count_duplicates.
    rewrite (proj2 (truthy_Some (Some car_no))) by (by exists car_no).
    case_bool_decide as He; simpl.
    - subst reserved_dates. clear.
      induction dates as [|d l IH]; [done|].
      rewrite filter_cons. destruct (decide _) as [Hin|_]; [|done].
      by apply not_elem_of_empty in Hin.
    - rewrite count_fold. lia. }
  split; [exact Hdup|]. split.
  - rewrite Hdup. unfold new_dates.
    pose proof (length_filter_not (λ d, (Some car_no, d) ∈ reserved_dates)
                  dates) as Hl.
    lia.
  - unfold _preview_dates. fold dates. fold duplicates.
    destruct dates as [|first rest] eqn:Hd; [done|].
    split; [|done]. intros Htext. exfalso.
    assert (String.prefix "총 " "선택된 요일이 없습니다" = true) as Hp;
      [|by vm_compute in Hp].
    rewrite <- Htext. destruct (0 <? duplicates).
    + rewrite string_app_assoc. apply prefix_app.
    + apply prefix_app.
Qed.

(** A run of X16: one of three scheduled days is reserved already. *)
Lemma preview_dates_counts_witness :
  count_duplicates
    (_get_schedule_dates [true; false; true; false; false; false; false] 1
       (ymd2ord 2024 1 1))
    "12A3456" {[ (Some "12A3456", ymd2ord 2024 1 3) ]} = 1.
Proof.
  rewrite (proj1 (preview_dates_counts (λ _, "")
                    [true; false; true; false; false; false; false] 1
                    (ymd2ord 2024 1 1) "12A3456"
                    {[ (Some "12A3456", ymd2ord 2024 1 3) ]} ltac:(done))).
  vm_compute. reflexivity.
Defined.

(** ** Registration and deletion *)

(** A run of the loop of [register_all] from any counts. *)
Lemma register_loop_run
    (server : list http_request → http_request → response)
    (strftime : date → string) (car_no phone purpose : string)
    (new_dates : list date) :
  ∀ (success failed : Z) (c : client),
  ∃ success' failed' c' new,
    register_loop server strftime car_no phone purpose new_dates success
      failed c
    = (Ok (success', failed'), c')
    ∧ success ≤ success' ∧ failed ≤ failed'
    ∧ success' + failed' = success + failed + Z.of_nat (length new_dates)
    ∧ _session c' = new ++ _session c
    ∧ (length new ≤ 4 * length new_dates)%nat
    ∧ _id c' = _id c ∧ _password c' = _password c
    ∧ Forall (λ r, is_login r = true
                   ∨ ∃ authorization d,
                       d ∈ new_dates
                       ∧ r = Request "POST" (BASE_URL +:+ "/pc/reserve/")
                               authorization
                               (Some {| p_visitDate := strftime d;
                                        p_purpose := purpose;
                                        p_carNo := car_no;
                                        p_days := 1;
                                        p_phone := phone |})) new.
Proof.
  induction new_dates as [|d rest IH]; intros success failed c.
  - exists success, failed, c, []. cbn [register_loop length].
    split_and!; try done; try lia. 
  - cbn [register_loop].
    destruct (reserve_car server strftime car_no d phone purpose 1 c)
      as [out c1] eqn:Hr.
    unfold reserve_car in Hr.
    change (if 1 <? 1 then 1
            else if MAX_DAYS_PER_RESERVATION <? 1
                 then MAX_DAYS_PER_RESERVATION else 1) with 1 in Hr.
    destruct (request_sends _ _ _ _ _ _ _ Hr)
      as (new1 & Hs1 & Hl1 & _ & _ & Hall1 & Hi1 & Hp1 & _).
    assert (Hnew1 : Forall (λ r, is_login r = true
                   ∨ ∃ authorization d0,
                       d0 ∈ d :: rest
                       ∧ r = Request "POST" (BASE_URL +:+ "/pc/reserve/")
                               authorization
                               (Some {| p_visitDate := strftime d0;
                                        p_purpose := purpose;
                                        p_carNo := car_no;
                                        p_days := 1;
                                        p_phone := phone |})) new1).
    { eapply Forall_impl; [exact Hall1|].
      intros r [->|(t & _ & ->)]; [by left|right].
      eexists _, d. split; [left|done]. }
    assert (Hrest : ∀ s0 f0, s0 + f0 = success + failed + 1 →
              success ≤ s0 → failed ≤ f0 →
      ∃ success' failed' c' new,
        register_loop server strftime car_no phone purpose rest s0 f0 c1
        = (Ok (success', failed'), c')
        ∧ success ≤ success' ∧ failed ≤ failed'
        ∧ success' + failed'
          = success + failed + Z.of_nat (length (d :: rest))
        ∧ _session c' = new ++ _session c
        ∧ (length new ≤ 4 * length (d :: rest))%nat
        ∧ _id c' = _id c ∧ _password c' = _password c
        ∧ Forall (λ r, is_login r = true
                   ∨ ∃ authorization d0,
                       d0 ∈ d :: rest
                       ∧ r = Request "POST" (BASE_URL +:+ "/pc/reserve/")
                               authorization
                               (Some {| p_visitDate := strftime d0;
                                        p_purpose := purpose;
                                        p_carNo := car_no;
                                        p_days := 1;
                                        p_phone := phone |})) new).
    { intros s0 f0 Hsum Hs0 Hf0.
      destruct (IH s0 f0 c1)
        as (s' & f' & c' & new & Hrun & Hs & Hf & Hcount & Hsess & Hlen
            & Hi & Hp & Hall).
      exists s', f', c', (new ++ new1).
      split; [exact Hrun|].
      split; [lia|]. split; [lia|].
      split; [cbn [length]; lia|].
      split; [by rewrite Hsess, Hs1, app_assoc|].
      split; [rewrite length_app; cbn [length]; lia|].
      split; [congruence|]. split; [congruence|].
      apply Forall_app. split; [|exact Hnew1].
      eapply Forall_impl; [exact Hall|].
      intros r [Hl|(a & d0 & Hd0 & ->)]; [by left|right].
      exists a, d0. split; [by right|done]. }
    destruct out as [data|e]; apply Hrest; lia.
Qed.

(** X17. [register_all] never raises, whatever the server answers: every
    day ends up counted once, as a success or as a failure.  All that it
    sends are logins and POSTs to the reservation path, each for one of the
    days it was given, formatted, with a day-span of 1 and with the plate,
    the phone and the purpose it was given; there are at most four requests
    a day, and the credentials of the client are left as they were. *)
Theorem register_all_counts
    (server : list http_request → http_request → response)
    (strftime : date → string) (car_no phone purpose : string)
    (new_dates : list date) (c : client) :
  ∃ success failed c' new,
    register_all server strftime car_no phone purpose new_dates c
    = (Ok (success, failed), c')
    ∧ 0 ≤ success ∧ 0 ≤ failed
    ∧ success + failed = Z.of_nat (length new_dates)
    ∧ _session c' = new ++ _session c
    ∧ (length new ≤ 4 * length new_dates)%nat
    ∧ _id c' = _id c ∧ _password c' = _password c
    ∧ Forall (λ r, is_login r = true
                   ∨ ∃ authorization d,
                       d ∈ new_dates
                       ∧ r = Request "POST" (BASE_URL +:+ "/pc/reserve/")
                               authorization
                               (Some {| p_visitDate := strftime d;
                                        p_purpose := purpose;
                                        p_carNo := car_no;
                                        p_days := 1;
                                        p_phone := phone |})) new.
Proof.
  unfold register_all.
  destruct (register_loop_run server strftime car_no phone purpose new_dates
              0 0 c)
    as (s & f & c' & new & Hrun & Hs & Hf & Hcount & Hrest).
  exists s, f, c', new.
  split; [exact Hrun|]. split; [exact Hs|]. split; [exact Hf|].
  split; [lia|exact Hrest].
Qed.

(** X18. What pressing the registration button comes to, for a window that
    holds a client.  Reservations are registered only for a plate that is
    not empty, a phone of at least 10 characters, and after the question was
    answered with Yes; in every other case nothing is sent and the history
    file is left alone, also when [add_car_to_history] raises, which ends
    the slot.  When they are registered, the worker does not
    raise, the two counts add up to the number of scheduled days that the
    index does not hold for the plate, the plate and the phone are saved in
    the history, and every reservation request is for a scheduled day that
    the index does not hold for the plate. *)
Theorem register_reservations_outcome
    (server : list http_request → http_request → response)
    (strftime : date → string) (car_no phone purpose : string)
    (day_checks : list bool) (weeks : Z) (today : date)
    (reserved_dates : gset (option string * date)) (reply : bool)
    (file : car_file) (c : client) :
  let dates := _get_schedule_dates day_checks weeks today in
  let submitted := new_dates dates car_no reserved_dates in
  match _register_reservations server strftime car_no phone purpose
          day_checks weeks today reserved_dates reply file c with
  | (Registered _ success failed, file', c') =>
      car_no ≠ "" ∧ 10 ≤ len phone ∧ reply = true ∧ submitted ≠ []
      ∧ 0 ≤ success ∧ 0 ≤ failed
      ∧ success + failed = Z.of_nat (length submitted)
      ∧ add_car_to_history car_no phone file = Ok file'
      ∧ ∃ new,
          _session c' = new ++ _session c
          ∧ Forall (λ r, is_login r = true
                         ∨ ∃ authorization d,
                             d ∈ dates
                             ∧ ((Some car_no, d) ∉ reserved_dates)
                             ∧ r = Request "POST"
                                     (BASE_URL +:+ "/pc/reserve/")
                                     authorization
                                     (Some {| p_visitDate := strftime d;
                                              p_purpose := purpose;
                                              p_carNo := car_no;
                                              p_days := 1;
                                              p_phone := phone |})) new
  | (HistoryError _ e, file', c') =>
      file' = file ∧ c' = c
      ∧ add_car_to_history car_no phone file = Raise e
  | (WorkerError _ _, _, _) => False
  | (_, file', c') => file' = file ∧ c' = c
  end.
Proof.
  intros dates submitted. unfold _register_reservations.
  fold dates. fold submitted.
  destruct (truthy (Some car_no)) eqn:Hcar; [|done].
  destruct (truthy (Some phone)) eqn:Hphone; [|done].
  destruct (Z.ltb_spec (len phone) 10) as [|Hlen]; [done|].
  cbn [negb orb].
  destruct dates as [|d0 dates0] eqn:Hdates; [done|].
  destruct submitted as [|n0 submitted0] eqn:Hsub; [done|].
  destruct reply; [|done]. cbn [negb].
  destruct (add_car_to_history car_no phone file) as [file'|e] eqn:Hadd;
    [|done].
  destruct (register_loop_run server strftime car_no phone purpose
              (n0 :: submitted0) 0 0 c)
    as (s & f & c' & new & Hrun & Hs & Hf & Hcount & Hsess & _ & _ & _
        & Hall).
  unfold register_all. rewrite Hrun.
  apply truthy_Some in Hcar as (? & [= <-] & Hne).
  split; [exact Hne|]. split; [lia|]. split; [done|]. split; [done|].
  split; [exact Hs|]. split; [exact Hf|]. split; [lia|]. split; [done|].
  exists new. split; [exact Hsess|].
  eapply Forall_impl; [exact Hall|].
  intros r [Hl|(a & d & Hd & ->)]; [by left|right].
  exists a, d. rewrite <- Hsub in Hd. unfold submitted, new_dates in Hd.
  apply list_elem_of_filter in Hd as [Hnot Hin].
  split; [exact Hin|]. split; [exact Hnot|done].
Qed.

(** X19. What pressing a deletion button comes to, for a window that holds
    a client.  Nothing is sent for a reservation without an identifier or
    with the identifier 0, nor when the question is not answered with Yes.
    Otherwise all that is sent are logins and DELETEs, without a body, to
    the path of this identifier, and the deletion is reported as done
    exactly when [delete_reservation] returns. *)
Theorem delete_reservation_outcome
    (server : list http_request → http_request → response)
    (idx : option Z) (reply : bool) (c : client) :
  match _delete_reservation server idx reply c with
  | (NoIdentifier, c') => (idx = None ∨ idx = Some 0) ∧ c' = c
  | (NotConfirmed, c') => reply = false ∧ c' = c
  | (out, c') =>
      ∃ i new,
        idx = Some i ∧ i ≠ 0 ∧ reply = true
        ∧ _session c' = new ++ _session c
        ∧ Forall (λ r, is_login r = true
                       ∨ ∃ authorization,
                           r = Request "DELETE"
                                 (BASE_URL +:+ "/pc/reserve/" +:+ str i)
                                 authorization None) new
        ∧ match out with
          | DeleteError e => delete_reservation server i c = (Raise e, c')
          | _ => ∃ data, delete_reservation server i c = (Ok data, c')
          end
  end.
Proof.
  unfold _delete_reservation.
  destruct idx as [i|]; [|by split; [left|]].
  destruct (Z.eqb_spec i 0) as [->|Hi]; [by split; [right|]|].
  destruct reply; [|done]. cbn [negb].
  destruct (delete_reservation server i c) as [out c'] eqn:Hrun.
  assert (Hnew : ∃ new,
    _session c' = new ++ _session c
    ∧ Forall (λ r, is_login r = true
                   ∨ ∃ authorization,
                       r = Request "DELETE"
                             (BASE_URL +:+ "/pc/reserve/" +:+ str i)
                             authorization None) new).
  { unfold delete_reservation in Hrun.
    destruct (request_sends _ _ _ _ _ _ _ Hrun)
      as (new & Hs & _ & _ & _ & Hall & _).
    exists new. split; [exact Hs|].
    eapply Forall_impl; [exact Hall|].
    intros r [->|(t & _ & ->)]; [by left|right]. by eexists. }
  destruct Hnew as (new & Hs & Hall).
  destruct out as [data|e]; exists i, new; split_and!; try done.
  by exists data.
Qed.
